(** * nscon: multi-session input translation and lifecycle manager

    A shallow embedding of the Go programs of the repository
    (bluetooth-demo/multi_controller.go, bluetooth-demo/no_held_buttons.go
    and the single-controller level-mode program) together with the
    properties of the event decoder, the axis normalizer, the state mapper
    and the session manager.

    Conventions:
    - Go [int], [int32], [uint16], [uint8] values are [Z], with the
      wrap-around of every conversion written out;
    - Go [float64] is the primitive binary64 float, so every arithmetic
      step rounds exactly as in the Go program;
    - [map[int]*nscon.Controller] is a [gmap Z Controller];
    - a pointer [*uint8] into the controller input is the name of the
      field it points to;
    - a [switch] over constant cases is the chain of equality tests it
      abbreviates, in the order of its cases;
    - calls into the operating system and into the nscon library are
      answered by an explicit [World] and recorded as [Effect]s;
    - [log.Printf] calls change no state and are left out. *)

From Stdlib Require Import ZArith PrimFloat Uint63 Lia List Bool.
From Stdlib.Strings Require Import Byte.
From Stdlib Require Import DecimalString DecimalZ.
From stdpp Require Import base gmap strings list.
Import ListNotations.
Local Open Scope Z_scope.

(** ** Machine integers *)

Module MachineInt.

(** Conversion to [uint8]: the low eight bits. *)
Definition uint8 (v : Z) : Z := v mod 256.

(** Conversion to [uint16]: the low sixteen bits. *)
Definition uint16 (v : Z) : Z := v mod 65536.

(** Conversion to [int32]: the low 32 bits read in two's complement. *)
Definition int32 (v : Z) : Z := (v + 2147483648) mod 4294967296 - 2147483648.

(** The values an [int32] variable can hold. *)
Definition is_int32 (v : Z) : Prop := -2147483648 <= v <= 2147483647.

(** The values a [uint16] variable can hold. *)
Definition is_uint16 (v : Z) : Prop := 0 <= v <= 65535.

(** [P] holds on [lo], [lo + 1], ..., [n] values in all. *)
Fixpoint forall_from (P : Z -> bool) (lo : Z) (n : nat) : bool :=
  match n with
  | O => true
  | S n' => P lo && forall_from P (lo + 1) n'
  end.

(** [P] holds on every integer of the inclusive interval [lo..hi]. *)
Definition forall_between (P : Z -> bool) (lo hi : Z) : bool :=
  forall_from P lo (Z.to_nat (hi - lo + 1)).

End MachineInt.

(** ** Axis normalizer *)

Module Axis.

(** [float64(value)] for an [int32] value. *)
Definition float64_of_int (v : Z) : float :=
  if v <? 0 then PrimFloat.opp (PrimFloat.of_uint63 (Uint63.of_Z (- v)))
  else PrimFloat.of_uint63 (Uint63.of_Z v).

(** The range tests of the inference chains. *)
Definition in8 (value : Z) : bool := (0 <=? value) && (value <=? 255).
Definition in16 (value : Z) : bool := (-32768 <=? value) && (value <=? 32767).
Definition in12 (value : Z) : bool := (0 <=? value) && (value <=? 4095).
Definition in10 (value : Z) : bool := (0 <=? value) && (value <=? 1023).

(** The scaling rules of the inference chains. *)
Definition rule8 (value : Z) : float :=
  ((float64_of_int value - 127.5) / 127.5)%float.
Definition rule16 (value : Z) : float :=
  (float64_of_int value / 32767.0)%float.
Definition rule12 (value : Z) : float :=
  ((float64_of_int value - 2048.0) / 2048.0)%float.
Definition rule10 (value : Z) : float :=
  ((float64_of_int value - 512.0) / 512.0)%float.

(** The constant [0.05] as the compiler rounds it to binary64. *)
Definition dead : float := 0x1.999999999999ap-5%float.

(** "Clamp to valid range". *)
Definition clamp (normalizedValue : float) : float :=
  if PrimFloat.ltb 1.0 normalizedValue then 1.0%float
  else if PrimFloat.ltb normalizedValue (-1.0) then (-1.0)%float
  else normalizedValue.

(** "Apply deadzone". *)
Definition deadzone (normalizedValue : float) : float :=
  if PrimFloat.ltb (- dead) normalizedValue && PrimFloat.ltb normalizedValue dead
  then 0.0%float
  else normalizedValue.

(** The range inference of the single-controller program: five branches. *)
Definition infer5 (value : Z) : float :=
  if in8 value then rule8 value
  else if in16 value then rule16 value
  else if in12 value then rule12 value
  else if in10 value then rule10 value
  else rule8 value.

(** The range inference of multi_controller.go: three branches. *)
Definition infer3 (value : Z) : float :=
  if in8 value then rule8 value
  else if in16 value then rule16 value
  else rule8 value.

(** The normalized value each program hands to its axis switch. *)
Definition normalize5 (value : Z) : float := deadzone (clamp (infer5 value)).
Definition normalize3 (value : Z) : float := deadzone (clamp (infer3 value)).

(** *** The contract in the words of the specification *)

(** A candidate range: inclusive bounds and the scaling rule. *)
Record Candidate := { lo : Z; hi : Z; rule : Z -> float }.

Definition contains (c : Candidate) (value : Z) : bool :=
  (lo c <=? value) && (value <=? hi c).

(** The precedence order: 8-bit unsigned, 16-bit signed, 12-bit unsigned,
    10-bit unsigned. *)
Definition precedence : list Candidate :=
  [ {| lo := 0; hi := 255; rule := rule8 |};
    {| lo := -32768; hi := 32767; rule := rule16 |};
    {| lo := 0; hi := 4095; rule := rule12 |};
    {| lo := 0; hi := 1023; rule := rule10 |} ].

(** The rule of the earliest candidate that contains the value, and the
    8-bit rule when none does. *)
Fixpoint first_rule (cs : list Candidate) (value : Z) : float :=
  match cs with
  | [] => rule8 value
  | c :: cs' => if contains c value then rule c value else first_rule cs' value
  end.






(** Membership of the interval [-1, 1]. *)
Definition in_unit (x : float) : bool :=
  PrimFloat.leb (-1.0) x && PrimFloat.leb x 1.0.

End Axis.

(** ** Canonical controller state *)

Module Input.

(** Modelled from the spec: the declaration of [nscon.ControllerInput]
    (the type of [con.Input]) is not among the sources.  The fields are
    the ones of the data model: the named digital buttons, two sticks with
    X, Y and a press, and the four d-pad directions; digital fields are
    [uint8], stick axes are [float64]. *)
Record ControllerInput := {
  Dpad_Up : Z;
  Dpad_Down : Z;
  Dpad_Left : Z;
  Dpad_Right : Z;
  Button_A : Z;
  Button_B : Z;
  Button_X : Z;
  Button_Y : Z;
  Button_L : Z;
  Button_R : Z;
  Button_ZL : Z;
  Button_ZR : Z;
  Button_Minus : Z;
  Button_Plus : Z;
  Button_Home : Z;
  Stick_Left_Press : Z;
  Stick_Right_Press : Z;
  Stick_Left_X : float;
  Stick_Left_Y : float;
  Stick_Right_X : float;
  Stick_Right_Y : float
}.

(** The zero value of the struct: what [nscon.NewController] starts from. *)
Definition zero : ControllerInput :=
  {| Dpad_Up := 0; Dpad_Down := 0; Dpad_Left := 0; Dpad_Right := 0;
     Button_A := 0; Button_B := 0; Button_X := 0; Button_Y := 0;
     Button_L := 0; Button_R := 0; Button_ZL := 0; Button_ZR := 0;
     Button_Minus := 0; Button_Plus := 0; Button_Home := 0;
     Stick_Left_Press := 0; Stick_Right_Press := 0;
     Stick_Left_X := 0.0; Stick_Left_Y := 0.0;
     Stick_Right_X := 0.0; Stick_Right_Y := 0.0 |}.

(** The [uint8] fields; a value of this type stands for a [*uint8]. *)
Inductive Digital :=
| DpadUp | DpadDown | DpadLeft | DpadRight
| ButtonA | ButtonB | ButtonX | ButtonY | ButtonL | ButtonR | ButtonZL | ButtonZR
| ButtonMinus | ButtonPlus | ButtonHome
| StickLeftPress | StickRightPress.

(** The [float64] fields. *)
Inductive Analog := StickLeftX | StickLeftY | StickRightX | StickRightY.

(** Any field of the state. *)
Inductive Field := D (d : Digital) | A (a : Analog).

(** What a field holds. *)
Inductive Value := U8 (v : Z) | F64 (x : float).

#[global] Instance Digital_eq_dec : EqDecision Digital.
Proof. solve_decision. Defined.
#[global] Instance Analog_eq_dec : EqDecision Analog.
Proof. solve_decision. Defined.
#[global] Instance Field_eq_dec : EqDecision Field.
Proof. solve_decision. Defined.

Definition all_digital : list Digital :=
  [ DpadUp; DpadDown; DpadLeft; DpadRight;
    ButtonA; ButtonB; ButtonX; ButtonY; ButtonL; ButtonR; ButtonZL; ButtonZR;
    ButtonMinus; ButtonPlus; ButtonHome; StickLeftPress; StickRightPress ].

Definition all_analog : list Analog :=
  [ StickLeftX; StickLeftY; StickRightX; StickRightY ].

Definition all_fields : list Field :=
  List.map D all_digital ++ List.map A all_analog.

(** Reading through a [*uint8]. *)
Definition getD (d : Digital) (c : ControllerInput) : Z :=
  match d with
  | DpadUp => Dpad_Up c | DpadDown => Dpad_Down c
  | DpadLeft => Dpad_Left c | DpadRight => Dpad_Right c
  | ButtonA => Button_A c | ButtonB => Button_B c
  | ButtonX => Button_X c | ButtonY => Button_Y c
  | ButtonL => Button_L c | ButtonR => Button_R c
  | ButtonZL => Button_ZL c | ButtonZR => Button_ZR c
  | ButtonMinus => Button_Minus c | ButtonPlus => Button_Plus c
  | ButtonHome => Button_Home c
  | StickLeftPress => Stick_Left_Press c
  | StickRightPress => Stick_Right_Press c
  end.

Definition getA (a : Analog) (c : ControllerInput) : float :=
  match a with
  | StickLeftX => Stick_Left_X c | StickLeftY => Stick_Left_Y c
  | StickRightX => Stick_Right_X c | StickRightY => Stick_Right_Y c
  end.

Definition get (f : Field) (c : ControllerInput) : Value :=
  match f with
  | D d => U8 (getD d c)
  | A a => F64 (getA a c)
  end.

(** Assignment to one [uint8] field. *)
Definition setD (d : Digital) (v : Z) (c : ControllerInput) : ControllerInput :=
  let w (d' : Digital) := if decide (d = d') then v else getD d' c in
  {| Dpad_Up := w DpadUp; Dpad_Down := w DpadDown;
     Dpad_Left := w DpadLeft; Dpad_Right := w DpadRight;
     Button_A := w ButtonA; Button_B := w ButtonB;
     Button_X := w ButtonX; Button_Y := w ButtonY;
     Button_L := w ButtonL; Button_R := w ButtonR;
     Button_ZL := w ButtonZL; Button_ZR := w ButtonZR;
     Button_Minus := w ButtonMinus; Button_Plus := w ButtonPlus;
     Button_Home := w ButtonHome;
     Stick_Left_Press := w StickLeftPress;
     Stick_Right_Press := w StickRightPress;
     Stick_Left_X := Stick_Left_X c; Stick_Left_Y := Stick_Left_Y c;
     Stick_Right_X := Stick_Right_X c; Stick_Right_Y := Stick_Right_Y c |}.

(** Assignment to one [float64] field. *)
Definition setA (a : Analog) (x : float) (c : ControllerInput) : ControllerInput :=
  let w (a' : Analog) := if decide (a = a') then x else getA a' c in
  {| Dpad_Up := Dpad_Up c; Dpad_Down := Dpad_Down c;
     Dpad_Left := Dpad_Left c; Dpad_Right := Dpad_Right c;
     Button_A := Button_A c; Button_B := Button_B c;
     Button_X := Button_X c; Button_Y := Button_Y c;
     Button_L := Button_L c; Button_R := Button_R c;
     Button_ZL := Button_ZL c; Button_ZR := Button_ZR c;
     Button_Minus := Button_Minus c; Button_Plus := Button_Plus c;
     Button_Home := Button_Home c;
     Stick_Left_Press := Stick_Left_Press c;
     Stick_Right_Press := Stick_Right_Press c;
     Stick_Left_X := w StickLeftX; Stick_Left_Y := w StickLeftY;
     Stick_Right_X := w StickRightX; Stick_Right_Y := w StickRightY |}.

(** A digital field holds exactly 0 or 1. *)
Definition binary (d : Digital) (c : ControllerInput) : Prop :=
  getD d c = 0 \/ getD d c = 1.

End Input.

(** ** State mapper, level mode *)

Module Level.
Import Input MachineInt.

Definition EV_KEY : Z := 1.
Definition EV_ABS : Z := 3.
Definition EV_SYN : Z := 0.

(** [setInput(input *uint8, pressed bool)]. *)
Definition setInput (input : Digital) (pressed : bool) (con : ControllerInput)
  : ControllerInput :=
  if pressed then setD input 1 con else setD input 0 con.

(** The [switch code] of the [EV_KEY] case; it is the same text in
    multi_controller.go and in the single-controller program. *)
Definition key_switch (code value : Z) (con : ControllerInput) : ControllerInput :=
  let pressed := 0 <? value in
  if code =? 304 then setInput ButtonA pressed con
  else if code =? 305 then setInput ButtonB pressed con
  else if code =? 307 then setInput ButtonY pressed con
  else if code =? 308 then setInput ButtonX pressed con
  else if code =? 310 then setInput ButtonL pressed con
  else if code =? 311 then setInput ButtonR pressed con
  else if code =? 312 then setInput ButtonZL pressed con
  else if code =? 313 then setInput ButtonZR pressed con
  else if code =? 314 then setInput ButtonMinus pressed con
  else if code =? 315 then setInput ButtonPlus pressed con
  else if code =? 316 then setInput ButtonHome pressed con
  else if code =? 317 then setD StickLeftPress (uint8 value) con
  else if code =? 318 then setD StickRightPress (uint8 value) con
  else con.

(** The two assignments of a d-pad axis: [neg] and [pos] are the fields of
    the negative and of the positive direction. *)
Definition hat (neg pos : Digital) (value : Z) (con : ControllerInput)
  : ControllerInput :=
  if value <? 0 then setD pos 0 (setD neg 1 con)
  else if 0 <? value then setD pos 1 (setD neg 0 con)
  else setD pos 0 (setD neg 0 con).

(** The [switch code] of the [EV_ABS] case of multi_controller.go. *)
Definition abs_switch (normalizedValue : float) (code value : Z)
    (con : ControllerInput) : ControllerInput :=
  if code =? 0 then setA StickLeftX normalizedValue con
  else if code =? 1 then setA StickLeftY (- normalizedValue)%float con
  else if code =? 3 then setA StickRightX normalizedValue con
  else if code =? 4 then setA StickRightY (- normalizedValue)%float con
  else if code =? 16 then hat DpadLeft DpadRight value con
  else if code =? 17 then hat DpadUp DpadDown value con
  else con.

(** The [switch code] of the [EV_ABS] case of the single-controller
    program: codes 2 and 5 (the triggers) are logged and nothing else. *)
Definition abs_switch_single (normalizedValue : float) (code value : Z)
    (con : ControllerInput) : ControllerInput :=
  if code =? 0 then setA StickLeftX normalizedValue con
  else if code =? 1 then setA StickLeftY (- normalizedValue)%float con
  else if code =? 3 then setA StickRightX normalizedValue con
  else if code =? 4 then setA StickRightY (- normalizedValue)%float con
  else if code =? 2 then con
  else if code =? 5 then con
  else if code =? 16 then hat DpadLeft DpadRight value con
  else if code =? 17 then hat DpadUp DpadDown value con
  else con.

End Level.

(** ** The fixed mapping *)

Module Mapping.
Import Input.

(** The fixed mapping of the specification, evdev code to the fields the
    event assigns: one field for a button, a stick press or a stick axis,
    the two directions of the axis for a d-pad axis. *)
Definition digital_codes : list (Z * list Field) :=
  [ (304, [D ButtonA]); (305, [D ButtonB]); (307, [D ButtonY]);
    (308, [D ButtonX]); (310, [D ButtonL]); (311, [D ButtonR]);
    (312, [D ButtonZL]); (313, [D ButtonZR]); (314, [D ButtonMinus]);
    (315, [D ButtonPlus]); (316, [D ButtonHome]);
    (317, [D StickLeftPress]); (318, [D StickRightPress]) ].

Definition analog_codes : list (Z * list Field) :=
  [ (0, [A StickLeftX]); (1, [A StickLeftY]);
    (3, [A StickRightX]); (4, [A StickRightY]);
    (16, [D DpadLeft; D DpadRight]); (17, [D DpadUp; D DpadDown]) ].

Fixpoint assoc (code : Z) (table : list (Z * list Field)) : list Field :=
  match table with
  | [] => []
  | (k, fs) :: table' => if code =? k then fs else assoc code table'
  end.

(** The fields an event of this type and code may assign; empty for a
    code outside the mapping and for a type that is neither key nor
    absolute axis. *)
Definition written (eventType code : Z) : list Field :=
  if eventType =? Level.EV_KEY then assoc code digital_codes
  else if eventType =? Level.EV_ABS then assoc code analog_codes
  else [].

End Mapping.

(** ** Event decoder and read loop *)

Module Decoder.
Import MachineInt Input.

(** [eventSize := 24]: the size of [struct input_event] on 64-bit systems. *)
Definition eventSize : Z := 24.

(** [buffer[i]] as an unsigned number. *)
Definition at_ (buffer : list Byte.byte) (i : nat) : Z :=
  Z.of_N (Byte.to_N (nth i buffer Byte.x00)).

(** "Parse the input_event structure": the three assignments of the read
    loops.  [uint16(b1)<<8] is a [uint16] shift and [int32(b)<<k] an
    [int32] shift, so each wraps at its own width. *)
Definition parse (buffer : list Byte.byte) : Z * Z * Z :=
  let eventType :=
    Z.lor (uint16 (at_ buffer 16)) (uint16 (Z.shiftl (uint16 (at_ buffer 17)) 8)) in
  let code :=
    Z.lor (uint16 (at_ buffer 18)) (uint16 (Z.shiftl (uint16 (at_ buffer 19)) 8)) in
  let value :=
    Z.lor (Z.lor (Z.lor (int32 (at_ buffer 20))
                        (int32 (Z.shiftl (int32 (at_ buffer 21)) 8)))
                 (int32 (Z.shiftl (int32 (at_ buffer 22)) 16)))
          (int32 (Z.shiftl (int32 (at_ buffer 23)) 24)) in
  (eventType, code, value).

(** *** The record layout in the words of the specification *)

(** A 2-byte little-endian unsigned integer. *)
Definition le_unsigned16 (b0 b1 : Z) : Z := b0 + 256 * b1.

(** A 4-byte little-endian two's-complement signed integer. *)
Definition le_signed32 (b0 b1 b2 b3 : Z) : Z :=
  let u := b0 + 256 * b1 + 65536 * b2 + 16777216 * b3 in
  if u <? 2147483648 then u else u - 4294967296.

(** 16 bytes of timestamp, then type, code and value. *)
Definition layout (buffer : list Byte.byte) : Z * Z * Z :=
  (le_unsigned16 (at_ buffer 16) (at_ buffer 17),
   le_unsigned16 (at_ buffer 18) (at_ buffer 19),
   le_signed32 (at_ buffer 20) (at_ buffer 21) (at_ buffer 22) (at_ buffer 23)).

(** One call [n, err := file.Read(buffer)]: the bytes the device
    delivered ([n] is their number, at most the buffer length) and whether
    an error came with them. *)
Record Read := { data : list Byte.byte; failed : bool }.

(** The count [n] the call returns. *)
Definition count (r : Read) : Z := Z.of_nat (length r.(data)).

(** The buffer after the call: the delivered bytes overwrite its front. *)
Definition fill (r : Read) (buffer : list Byte.byte) : list Byte.byte :=
  take (length buffer) (r.(data) ++ drop (length r.(data)) buffer).

(** [make([]byte, eventSize)]. *)
Definition fresh_buffer : list Byte.byte := repeat Byte.x00 (Z.to_nat eventSize).

(** The variables of a read loop that outlive an iteration: the buffer
    and the input of the controller the loop drives. *)
Record Loop := { buffer : list Byte.byte; con : ControllerInput }.

End Decoder.

(** ** multi_controller.go *)

Module Multi.
Import Input Level Decoder.

(** [handleInputEvent] of the controller manager, as a transformer of
    [con.Input]. *)
Definition handleInputEvent (eventType code value : Z) (con : ControllerInput)
  : ControllerInput :=
  if eventType =? EV_KEY then key_switch code value con
  else if eventType =? EV_ABS then
    abs_switch (Axis.normalize3 value) code value con
  else con.

(** The protocol handle [*nscon.Controller] as the manager sees it: the
    endpoint path given to [nscon.NewController] and the [LogLevel] the
    manager assigns.  Its methods [Connect] and [Close] belong to the
    nscon library. *)
Record Controller := { path : string; LogLevel : Z }.

(** The collaborators outside the program: for an endpoint path, the
    error [Connect] returns ([None] when it connects); for a device path,
    whether [os.Open] succeeds. *)
Record World := {
  connect_error : string -> option string;
  can_open : string -> bool
}.

(** The calls that leave the manager. *)
Inductive Effect :=
| Connected (c : Controller)
| Closed (c : Controller)
| Started (playerNum : Z) (devicePath : string) (c : Controller).

#[global] Instance Controller_eq_dec : EqDecision Controller.
Proof. solve_decision. Defined.
#[global] Instance Effect_eq_dec : EqDecision Effect.
Proof. solve_decision. Defined.

(** [type ControllerManager struct]; the mutex is held for the whole of
    every method below, so each method is one atomic transition. *)
Record ControllerManager := {
  controllers : gmap Z Controller;
  devices : gmap Z string;
  logLevel : Z
}.

(** [NewControllerManager]. *)
Definition NewControllerManager (logLevel : Z) : ControllerManager :=
  {| controllers := ∅; devices := ∅; logLevel := logLevel |}.

(** The three [fmt.Errorf] results of [AddController]: the RangeError,
    the DuplicateError and the ConnectError of the specification. *)
Inductive Error :=
| PlayerOutOfRange (playerNum : Z)
| AlreadyExists (playerNum : Z)
| ConnectFailed (playerNum : Z) (err : string).

(** What a method leaves behind: the returned error ([None] for [nil]),
    the manager, and the calls it made. *)
Record Outcome := {
  result : option Error;
  manager : ControllerManager;
  effects : list Effect
}.

Definition fail (e : Error) (cm : ControllerManager) : Outcome :=
  {| result := Some e; manager := cm; effects := [] |}.

(** [AddController]. *)
Definition AddController (w : World) (cm : ControllerManager)
    (playerNum : Z) (hidgDevice inputDevice : string) : Outcome :=
  if (playerNum <? 1) || (8 <? playerNum) then
    fail (PlayerOutOfRange playerNum) cm
  else
    match controllers cm !! playerNum with
    | Some _ => fail (AlreadyExists playerNum) cm
    | None =>
      let controller := {| path := hidgDevice; LogLevel := logLevel cm |} in
      match connect_error w hidgDevice with
      | Some err => fail (ConnectFailed playerNum err) cm
      | None =>
        {| result := None;
           manager :=
             {| controllers := <[playerNum := controller]> (controllers cm);
                devices := <[playerNum := inputDevice]> (devices cm);
                logLevel := logLevel cm |};
           effects := [Connected controller;
                       Started playerNum inputDevice controller] |}
      end
    end.

(** [RemoveController]. *)
Definition RemoveController (cm : ControllerManager) (playerNum : Z)
  : ControllerManager * list Effect :=
  match controllers cm !! playerNum with
  | Some controller =>
    ({| controllers := delete playerNum (controllers cm);
        devices := delete playerNum (devices cm);
        logLevel := logLevel cm |},
     [Closed controller])
  | None => (cm, [])
  end.

(** [Close]: every registered controller is closed (Go leaves the order
    of a map range open; the order of [map_to_list] stands for it), then
    both maps are replaced by empty ones. *)
Definition Close (cm : ControllerManager) : ControllerManager * list Effect :=
  ({| controllers := ∅; devices := ∅; logLevel := logLevel cm |},
   (fun kv : Z * Controller => Closed kv.2) <$> map_to_list (controllers cm)).

(** [ListControllers]. *)
Definition ListControllers (cm : ControllerManager) : list Z :=
  (map_to_list (controllers cm)).*1.

(** One iteration either returns or goes round again. *)
Inductive Step := Return | Continue (l : Loop).

(** One iteration of the [for] loop of [readControllerInput]: [cm] is the
    manager as the iteration finds it under the read lock, [r] is what
    [file.Read] delivers. *)
Definition iteration (cm : ControllerManager) (playerNum : Z) (r : Read)
    (l : Loop) : Step :=
  match controllers cm !! playerNum with
  | None => Return
  | Some _ =>
    let buffer' := fill r (buffer l) in
    if failed r then Continue {| buffer := buffer'; con := con l |}
    else if negb (count r =? eventSize) then
      Continue {| buffer := buffer'; con := con l |}
    else
      let '(eventType, code, value) := parse buffer' in
      Continue {| buffer := buffer';
                  con := handleInputEvent eventType code value (con l) |}
  end.

(** How far a reader has come. *)
Inductive Exit :=
| OpenFailed
| Stopped (input : ControllerInput)
| Reading (l : Loop).

(** The loop over the iterations the trace describes. *)
Fixpoint loop (playerNum : Z) (trace : list (ControllerManager * Read))
    (l : Loop) : Exit :=
  match trace with
  | [] => Reading l
  | (cm, r) :: rest =>
    match iteration cm playerNum r l with
    | Return => Stopped (con l)
    | Continue l' => loop playerNum rest l'
    end
  end.

(** [readControllerInput]: a failed [os.Open] is logged and the function
    returns; otherwise the loop runs on a fresh buffer. *)
Definition readControllerInput (w : World) (playerNum : Z) (devicePath : string)
    (input : ControllerInput) (trace : list (ControllerManager * Read)) : Exit :=
  if can_open w devicePath then
    loop playerNum trace {| buffer := fresh_buffer; con := input |}
  else OpenFailed.


End Multi.

(** ** The single-controller level-mode program *)

Module Single.
Import Input Level Decoder.

(** [handleInputEvent], as a transformer of [con.Input]; the [state]
    argument of the Go function is never read or written. *)
Definition handleInputEvent (eventType code value : Z) (con : ControllerInput)
  : ControllerInput :=
  if eventType =? EV_KEY then key_switch code value con
  else if eventType =? EV_ABS then
    abs_switch_single (Axis.normalize5 value) code value con
  else if eventType =? EV_SYN then con
  else con.

(** One iteration of the [for] loop of [readInputEvents]. *)
Definition iteration (r : Read) (l : Loop) : Loop :=
  let buffer' := fill r (buffer l) in
  if failed r then {| buffer := buffer'; con := con l |}
  else if negb (count r =? eventSize) then
    {| buffer := buffer'; con := con l |}
  else
    let '(eventType, code, value) := parse buffer' in
    {| buffer := buffer';
       con := handleInputEvent eventType code value (con l) |}.

End Single.

(** ** no_held_buttons.go: pulse mode *)

Module Pulse.
Import Input Level MachineInt.

(** A pending [time.AfterFunc(100*time.Millisecond, func() { *input = 0 })]:
    the time in milliseconds at which it is due and the field its function
    resets. *)
Record Timer := { due : Z; target : Digital }.

(** The controller input together with the runtime's clock (in
    milliseconds) and its pending timers, oldest first. *)
Record Machine := { con : ControllerInput; clock : Z; timers : list Timer }.

(** A machine at time 0 with nothing pending. *)
Definition start (c : ControllerInput) : Machine :=
  {| con := c; clock := 0; timers := [] |}.

(** [setInput(input *uint8)]: the field is set and a timer of its own is
    scheduled; the call returns at once. *)
Definition setInput (input : Digital) (m : Machine) : Machine :=
  {| con := setD input 1 (con m);
     clock := clock m;
     timers := timers m ++ [{| due := clock m + 100; target := input |}] |}.

(** An assignment to [con.Input] that schedules nothing. *)
Definition assign (f : ControllerInput -> ControllerInput) (m : Machine) : Machine :=
  {| con := f (con m); clock := clock m; timers := timers m |}.

(** The [switch code] of the [EV_KEY] case. *)
Definition key_switch (code value : Z) (m : Machine) : Machine :=
  let pressed := 0 <? value in
  if code =? 304 then (if pressed then setInput ButtonA m else m)
  else if code =? 305 then (if pressed then setInput ButtonB m else m)
  else if code =? 307 then (if pressed then setInput ButtonY m else m)
  else if code =? 308 then (if pressed then setInput ButtonX m else m)
  else if code =? 310 then (if pressed then setInput ButtonL m else m)
  else if code =? 311 then (if pressed then setInput ButtonR m else m)
  else if code =? 312 then (if pressed then setInput ButtonZL m else m)
  else if code =? 313 then (if pressed then setInput ButtonZR m else m)
  else if code =? 314 then (if pressed then setInput ButtonMinus m else m)
  else if code =? 315 then (if pressed then setInput ButtonPlus m else m)
  else if code =? 316 then (if pressed then setInput ButtonHome m else m)
  else if code =? 317 then assign (setD StickLeftPress (uint8 value)) m
  else if code =? 318 then assign (setD StickRightPress (uint8 value)) m
  else m.

(** The [switch code] of the [EV_ABS] case. *)
Definition abs_switch (normalizedValue : float) (code value : Z) (m : Machine)
  : Machine :=
  if code =? 0 then assign (setA StickLeftX normalizedValue) m
  else if code =? 1 then assign (setA StickLeftY (- normalizedValue)%float) m
  else if code =? 3 then assign (setA StickRightX normalizedValue) m
  else if code =? 4 then assign (setA StickRightY (- normalizedValue)%float) m
  else if code =? 2 then m
  else if code =? 5 then m
  else if code =? 16 then
    (if value <? 0 then setInput DpadLeft m
     else if 0 <? value then setInput DpadRight m
     else m)
  else if code =? 17 then
    (if value <? 0 then setInput DpadUp m
     else if 0 <? value then setInput DpadDown m
     else m)
  else m.

(** [handleInputEvent]. *)
Definition handleInputEvent (eventType code value : Z) (m : Machine) : Machine :=
  if eventType =? EV_KEY then key_switch code value m
  else if eventType =? EV_ABS then
    abs_switch (Axis.normalize5 value) code value m
  else if eventType =? EV_SYN then m
  else m.

(** The function of a timer: [*input = 0]. *)
Definition fire (c : ControllerInput) (t : Timer) : ControllerInput :=
  setD (target t) 0 c.

(** The runtime lets [dt] milliseconds pass with no event handled: the
    timers that have become due run, oldest first, and leave the list. *)
Definition elapse (dt : Z) (m : Machine) : Machine :=
  let now := clock m + dt in
  {| con := fold_left fire (List.filter (fun t => due t <=? now) (timers m)) (con m);
     clock := now;
     timers := List.filter (fun t => negb (due t <=? now)) (timers m) |}.


End Pulse.

(** ** Scenarios *)

(** The state in which the d-pad points right. *)
Definition dpad_right : Input.ControllerInput :=
  Multi.handleInputEvent 3 16 1 Input.zero.

(** A world in which every endpoint connects and every device opens. *)
Definition friendly : Multi.World :=
  {| Multi.connect_error := fun _ => None; Multi.can_open := fun _ => true |}.

(** A manager with slot 1 registered. *)
Definition one_session : Multi.ControllerManager :=
  Multi.manager
    (Multi.AddController friendly (Multi.NewControllerManager 1) 1
                         "/dev/hidg0" "/dev/input/event2").



(** The pulse-mode machine after a press of the left stick (type 1,
    code 317, value 1) on a fresh controller. *)
Definition left_stick_pressed : Pulse.Machine :=
  Pulse.handleInputEvent 1 317 1 (Pulse.start Input.zero).

(** The 24-byte record of an absolute-axis event: type 3, code 1 (the left
    stick, Y), value 200, after a timestamp of arbitrary bytes. *)
Definition axis_record : list Byte.byte :=
  repeat Byte.xff 16
  ++ [Byte.x03; Byte.x00; Byte.x01; Byte.x00;
      Byte.xc8; Byte.x00; Byte.x00; Byte.x00].

(** The 24-byte record of a key event: type 1, code 317 (0x013d, the left
    stick press), value 2 (the kernel's auto-repeat value). *)
Definition stick_press_record : list Byte.byte :=
  repeat Byte.x00 16
  ++ [Byte.x01; Byte.x00; Byte.x3d; Byte.x01;
      Byte.x02; Byte.x00; Byte.x00; Byte.x00].

(** A read that delivers the first ten bytes of a record and no error. *)
Definition short_read : Decoder.Read :=
  {| Decoder.data := take 10 axis_record; Decoder.failed := false |}.

(** ** Callers of the manager *)

Module Lifecycle.
Import Multi.

(** One call of a method that takes the write lock, with the world it
    meets. *)
Inductive Call :=
| CallAdd (w : World) (playerNum : Z) (hidgDevice inputDevice : string)
| CallRemove (playerNum : Z)
| CallClose.

(** The manager and the calls it has made after one more call. *)
Definition step (st : ControllerManager * list Effect) (c : Call)
  : ControllerManager * list Effect :=
  match c with
  | CallAdd w playerNum hidgDevice inputDevice =>
    let o := AddController w st.1 playerNum hidgDevice inputDevice in
    (manager o, st.2 ++ effects o)
  | CallRemove playerNum =>
    let r := RemoveController st.1 playerNum in (r.1, st.2 ++ r.2)
  | CallClose =>
    let r := Close st.1 in (r.1, st.2 ++ r.2)
  end.

(** Any sequence of calls on a manager made by [NewControllerManager]. *)
Definition run (logLevel : Z) (calls : list Call)
  : ControllerManager * list Effect :=
  fold_left step calls (NewControllerManager logLevel, []).

(** The controllers an effect list has connected, and those it has
    closed, in the order of the calls. *)
Definition connected (effs : list Effect) : list Controller :=
  omap (fun e => match e with Connected c => Some c | _ => None end) effs.

Definition closed (effs : list Effect) : list Controller :=
  omap (fun e => match e with Closed c => Some c | _ => None end) effs.

(** The controllers a registry holds, one for each slot. *)
Definition registered (cm : ControllerManager) : list Controller :=
  (map_to_list (controllers cm)).*2.

(** What every manager built by calls satisfies. *)
Record Consistent (cm : ControllerManager) : Prop := {
  slots_in_range :
    forall n c, controllers cm !! n = Some c -> 1 <= n <= 8;
  same_slots :
    forall n, is_Some (controllers cm !! n) <-> is_Some (devices cm !! n);
  endpoint_settings :
    forall n c, controllers cm !! n = Some c -> LogLevel c = logLevel cm
}.

End Lifecycle.

(** ** The events a stream of reads carries *)

Module Stream.
Import Decoder.

(** The event a read contributes: the record it delivered when it came
    without error and with exactly [eventSize] bytes, none otherwise. *)
Definition event_of (r : Read) : option (Z * Z * Z) :=
  if failed r then None
  else if count r =? eventSize then Some (layout (data r))
  else None.

(** One decoded event applied to the controller input. *)
Definition apply (con : Input.ControllerInput) (ev : Z * Z * Z)
  : Input.ControllerInput :=
  Multi.handleInputEvent ev.1.1 ev.1.2 ev.2 con.

(** The events of the reads applied in arrival order. *)
Definition replay (reads : list Read) (con : Input.ControllerInput)
  : Input.ControllerInput :=
  fold_left apply (omap event_of reads) con.

(** The [for] loop of [readInputEvents] of the single-controller program
    over the reads the device delivers. *)
Definition single_loop (reads : list Read) (l : Loop) : Loop :=
  fold_left (fun l r => Single.iteration r l) reads l.

End Stream.

(** A read that delivers the whole axis record and no error, and a trace
    in which the reader of slot 1 finds its slot registered twice. *)
Definition full_read : Decoder.Read :=
  {| Decoder.data := axis_record; Decoder.failed := false |}.

Definition registered_twice : list (Multi.ControllerManager * Decoder.Read) :=
  [(one_session, short_read); (one_session, full_read)].

(** ** Records as the kernel writes them *)

Module Wire.
Import Decoder.

(** The byte with the given unsigned value (the low eight bits of it). *)
Definition byte_of (z : Z) : Byte.byte :=
  match Byte.of_N (Z.to_N (z mod 256)) with
  | Some b => b
  | None => Byte.x00
  end.

(** [struct input_event] for an event, little-endian, behind a timestamp:
    the buffer a read of [eventSize] bytes delivers for it. *)
Definition record (timestamp : list Byte.byte) (eventType code value : Z)
  : list Byte.byte :=
  timestamp
  ++ [byte_of eventType; byte_of (eventType / 256);
      byte_of code; byte_of (code / 256);
      byte_of value; byte_of (value / 256);
      byte_of (value / 65536); byte_of (value / 16777216)].

End Wire.

(** ** What the level-mode mapper keeps *)

Module Shape.
Import Input.

(** Buttons and d-pad directions are 0 or 1, a stick press is a [uint8],
    and the two directions of a d-pad axis are never set together. *)
Record Digital_ok (c : ControllerInput) : Prop := {
  buttons_binary :
    forall d, d <> StickLeftPress -> d <> StickRightPress -> binary d c;
  left_press_uint8 : 0 <= Stick_Left_Press c <= 255;
  right_press_uint8 : 0 <= Stick_Right_Press c <= 255;
  horizontal_exclusive : Dpad_Left c + Dpad_Right c <= 1;
  vertical_exclusive : Dpad_Up c + Dpad_Down c <= 1
}.

(** The four stick axes lie in [-1, 1]. *)
Definition sticks_in_unit (c : ControllerInput) : bool :=
  Axis.in_unit (Stick_Left_X c) && Axis.in_unit (Stick_Left_Y c)
  && Axis.in_unit (Stick_Right_X c) && Axis.in_unit (Stick_Right_Y c).

(** The raw value of an event fits a signed 16-bit axis. *)
Definition fits16 (ev : Z * Z * Z) : Prop := -32768 <= ev.2 <= 32767.

End Shape.

(** ** The shape of the normalizer on a signed 16-bit axis *)

Module Curve.
Import Axis.

(** The raw values the deadzone swallows: 122..133 among the values read
    as 8-bit, -1638..1638 among the others. *)
Definition swallowed (v : Z) : bool :=
  if in8 v then (122 <=? v) && (v <=? 133)
  else (-1638 <=? v) && (v <=? 1638).

(** The raw values read as full deflection to the positive and to the
    negative side. *)
Definition full_positive (v : Z) : bool := (v =? 255) || (v =? 32767).
Definition full_negative (v : Z) : bool := (v =? 0) || (v <=? -32767).

(** The two seams of the range inference: the steps from -1 to 0 and from
    255 to 256, where the rule changes. *)
Definition seam (v : Z) : bool := (v =? -1) || (v =? 255).

(** Everything the curve is checked for at the raw value [v]. *)
Definition shape_at (v : Z) : bool :=
  Bool.eqb (PrimFloat.eqb (normalize3 v) 0.0) (swallowed v)
  && Bool.eqb (PrimFloat.eqb (normalize3 v) 1.0) (full_positive v)
  && Bool.eqb (PrimFloat.eqb (normalize3 v) (-1.0)) (full_negative v)
  && (PrimFloat.eqb (normalize3 v) 0.0
      || PrimFloat.leb dead (PrimFloat.abs (normalize3 v)))
  && Bool.eqb (PrimFloat.leb (normalize3 v) (normalize3 (v + 1)))
              (negb (seam v)).

End Curve.

(** ** Pulse mode over time *)

Module Schedule.
Import Input Pulse.

(** What happens to the pulse-mode machine: an event is handled, or time
    passes with no event. *)
Inductive Action :=
| Event (eventType code value : Z)
| Wait (dt : Z).

Definition act (m : Machine) (a : Action) : Machine :=
  match a with
  | Event eventType code value => handleInputEvent eventType code value m
  | Wait dt => elapse dt m
  end.

Definition run (actions : list Action) (m : Machine) : Machine :=
  fold_left act actions m.


(** The fields pulse mode sets through [setInput]: all digital fields but
    the two stick presses. *)
Definition pulsed (d : Digital) : Prop :=
  d <> StickLeftPress /\ d <> StickRightPress.


End Schedule.


(** ** Device discovery and the automatic set-up *)

Module Discovery.
Import Multi.

(** [fmt.Sprintf("%d", i)]. *)
Definition itoa (i : Z) : string := NilZero.string_of_int (Z.to_int i).

(** The file system as the discovery functions meet it: whether
    [os.Stat] succeeds on a path, and what [os.ReadFile] followed by
    [strings.TrimSpace] yields for a path ([None] when the read fails). *)
Record Files := {
  stat : string -> bool;
  trimmed : string -> option string
}.

(** [possiblePaths] of [findControllerDevice]. *)
Definition possiblePaths : list string :=
  [ "/dev/input/event0"; "/dev/input/event1"; "/dev/input/event2";
    "/dev/input/event3"; "/dev/input/event4"; "/dev/input/event5";
    "/dev/input/js0"; "/dev/input/js1" ]%string.

(** [findControllerDevice] of the single-controller programs. *)
Definition findControllerDevice (fs : Files) : string :=
  match List.find (stat fs) possiblePaths with
  | Some path => path
  | None => "/dev/input/event0"%string
  end.

(** The two paths [findInputDevices] builds for the index [i]. *)
Definition event_path (i : Z) : string := "/dev/input/event" +:+ itoa i.
Definition name_path (i : Z) : string :=
  "/sys/class/input/event" +:+ itoa i +:+ "/device/name".

(** The test an event device has to pass. *)
Definition is_controller (fs : Files) (i : Z) : bool :=
  stat fs (event_path i)
  && bool_decide (trimmed fs (name_path i) = Some "Wireless Controller"%string).

(** The body of the [for] loop of [findInputDevices]. *)
Definition probe (fs : Files) (devices : gmap Z string) (i : Z) : gmap Z string :=
  let path := event_path i in
  if stat fs path then
    match trimmed fs (name_path i) with
    | None => devices
    | Some name =>
      if decide (name = "Wireless Controller"%string)
      then <[Z.of_nat (size devices) + 1 := path]> devices
      else devices
    end
  else devices.

(** The devices that pass the test, in the order of their indices. *)
Definition controllers_found (fs : Files) (indices : list Z) : list string :=
  event_path <$> List.filter (is_controller fs) indices.

(** A map that numbers a list from 1. *)
Definition numbers (devices : gmap Z string) (l : list string) : Prop :=
  size devices = length l /\
  forall k : Z,
    devices !! k = if decide (1 <= k) then l !! Z.to_nat (k - 1) else None.

(** [findInputDevices]: the indices 0 to 9 in turn. *)
Definition findInputDevices (fs : Files) : gmap Z string :=
  fold_left (probe fs) (seqZ 0 10) ∅.

(** [setupUSBGadgets], the list it returns. *)
Definition setupUSBGadgets (numControllers : Z) : list string :=
  (fun i => "/dev/hidg" +:+ itoa i) <$> seqZ 0 numControllers.

(** The loop of [main] that adds the controllers in auto mode, over the
    input devices in the order the map range yields them; the guard keeps
    the index [playerNum-1] inside [hidgDevices]. *)
Fixpoint auto_add (w : World) (hidgDevices : list string)
    (order : list string) (st : ControllerManager * Z) : ControllerManager * Z :=
  match order with
  | [] => st
  | inputDevice :: rest =>
    let '(cm, playerNum) := st in
    if Z.of_nat (length hidgDevices) <? playerNum then st
    else
      let o := AddController w cm playerNum
                 (nth (Z.to_nat (playerNum - 1)) hidgDevices ""%string)
                 inputDevice in
      match result o with
      | Some _ => auto_add w hidgDevices rest (manager o, playerNum)
      | None => auto_add w hidgDevices rest (manager o, playerNum + 1)
      end
  end.

(** Auto mode of [main] up to the list of active controllers: the manager
    after the loop, started with [playerNum := 1] on a new manager and on
    the gadgets set up for as many controllers as devices were found. *)
Definition auto_mode (w : World) (logLevel : Z) (order : list string)
  : ControllerManager :=
  (auto_add w (setupUSBGadgets (Z.of_nat (length order))) order
            (NewControllerManager logLevel, 1)).1.

(** The registry in which the first devices of [order], eight at most,
    hold the slots 1, 2, ... in this order, slot k on the endpoint
    /dev/hidg(k-1), and no other slot is taken. *)
Definition assigned (lv : Z) (order : list string) (cm : ControllerManager)
  : Prop :=
  logLevel cm = lv /\
  forall k : Z,
    controllers cm !! k
    = (if decide (1 <= k <= Z.of_nat (min (length order) 8))
       then Some {| path := "/dev/hidg" +:+ itoa (k - 1); LogLevel := lv |}
       else None) /\
    devices cm !! k
    = (if decide (1 <= k <= Z.of_nat (min (length order) 8))
       then order !! Z.to_nat (k - 1)
       else None).

End Discovery.

(** A file system with event devices 0 to 3, of which 1 and 3 are
    wireless controllers. *)
Definition two_controllers : Discovery.Files :=
  {| Discovery.stat := fun p =>
       bool_decide (p ∈ [ "/dev/input/event0"; "/dev/input/event1";
                          "/dev/input/event2"; "/dev/input/event3" ]%string);
     Discovery.trimmed := fun p =>
       if bool_decide (p ∈ [ "/sys/class/input/event1/device/name";
                             "/sys/class/input/event3/device/name" ]%string)
       then Some "Wireless Controller"%string
       else if bool_decide (p = "/sys/class/input/event0/device/name"%string)
            then Some "Power Button"%string
            else None |}.

(** * Properties *)

(** ** Axis normalizer *)

Section AxisFacts.
Import Axis MachineInt.

Lemma forall_from_spec (P : Z -> bool) (n : nat) :
  forall lo, forall_from P lo n = true ->
  forall v, lo <= v < lo + Z.of_nat n -> P v = true.
Proof.
  induction n as [| n IH]; intros lo H v Hv.
  - simpl in Hv. lia.
  - cbn [forall_from] in H. apply andb_true_iff in H as [Hlo Hrest].
    destruct (Z.eq_dec v lo) as [-> | Hne]; [exact Hlo |].
    apply (IH (lo + 1) Hrest). lia.
Qed.

Lemma forall_between_spec (P : Z -> bool) (lo hi : Z) :
  forall_between P lo hi = true ->
  forall v, lo <= v <= hi -> P v = true.
Proof.
  unfold forall_between. intros H v Hv.
  apply (forall_from_spec P _ lo H). rewrite Z2Nat.id; lia.
Qed.


Lemma in16_true (v : Z) : in16 v = true <-> -32768 <= v <= 32767.
Proof. unfold in16. rewrite andb_true_iff, !Z.leb_le. tauto. Qed.

Lemma in12_true (v : Z) : in12 v = true <-> 0 <= v <= 4095.
Proof. unfold in12. rewrite andb_true_iff, !Z.leb_le. tauto. Qed.

Lemma in10_true (v : Z) : in10 v = true <-> 0 <= v <= 1023.
Proof. unfold in10. rewrite andb_true_iff, !Z.leb_le. tauto. Qed.


Lemma in16_false (v : Z) : in16 v = false <-> ~ (-32768 <= v <= 32767).
Proof. rewrite <- in16_true. destruct (in16 v); split; congruence. Qed.

(** Whatever fails the 16-bit test fails the 12-bit and the 10-bit test. *)
Lemma beyond16_beyond12_and_10 (v : Z) :
  in16 v = false -> in12 v = false /\ in10 v = false.
Proof.
  intros H16. apply in16_false in H16.
  split.
  - destruct (in12 v) eqn:E; [apply in12_true in E; lia | reflexivity].
  - destruct (in10 v) eqn:E; [apply in10_true in E; lia | reflexivity].
Qed.

Lemma infer5_infer3 (v : Z) : infer5 v = infer3 v.
Proof.
  unfold infer5, infer3.
  destruct (in8 v); [reflexivity |].
  destruct (in16 v) eqn:H16; [reflexivity |].
  destruct (beyond16_beyond12_and_10 v H16) as [-> ->]. reflexivity.
Qed.

Lemma normalize5_normalize3 (v : Z) : normalize5 v = normalize3 v.
Proof. unfold normalize5, normalize3. now rewrite infer5_infer3. Qed.




(** The index of the earliest candidate that contains the value decides
    [first_rule]. *)
Lemma first_rule_earliest (cs : list Candidate) (v : Z) :
  forall (i : nat) (c : Candidate),
    cs !! i = Some c -> contains c v = true ->
    (forall j c', (j < i)%nat -> cs !! j = Some c' -> contains c' v = false) ->
    first_rule cs v = rule c v.
Proof.
  induction cs as [| c0 cs IH]; intros i c Hi Hc Hmin; [discriminate |].
  destruct i as [| i]; simpl in *.
  - injection Hi as ->. now rewrite Hc.
  - rewrite (Hmin 0%nat c0 ltac:(lia) eq_refl).
    apply (IH i c Hi Hc). intros j c' Hj Hc'.
    apply (Hmin (S j) c'); [lia | exact Hc'].
Qed.

Lemma first_rule_none (cs : list Candidate) (v : Z) :
  (forall c, c ∈ cs -> contains c v = false) -> first_rule cs v = rule8 v.
Proof.
  induction cs as [| c0 cs IH]; intros H; [reflexivity |].
  simpl. rewrite (H c0) by apply list_elem_of_here.
  apply IH. intros c Hc. apply H. now apply list_elem_of_further.
Qed.

Lemma infer5_first_rule (v : Z) : infer5 v = first_rule precedence v.
Proof. reflexivity. Qed.

End AxisFacts.




(** C3: a raw value is normalized under the rule of the earliest range of
    the precedence order (8-bit, 16-bit, 12-bit, 10-bit) that contains it,
    and under the 8-bit rule when no range contains it. *)
Theorem precedence_law :
  forall value : Z,
    Axis.normalize5 value
      = Axis.deadzone (Axis.clamp (Axis.first_rule Axis.precedence value)) /\
    (forall (i : nat) (c : Axis.Candidate),
        Axis.precedence !! i = Some c ->
        Axis.contains c value = true ->
        (forall j c', (j < i)%nat -> Axis.precedence !! j = Some c' ->
                      Axis.contains c' value = false) ->
        Axis.normalize5 value = Axis.deadzone (Axis.clamp (Axis.rule c value))) /\
    ((forall c, c ∈ Axis.precedence -> Axis.contains c value = false) ->
     Axis.normalize5 value = Axis.deadzone (Axis.clamp (Axis.rule8 value))).
Proof.
  intros value. unfold Axis.normalize5. rewrite infer5_first_rule.
  split; [reflexivity | split].
  - intros i c Hi Hc Hmin.
    now rewrite (first_rule_earliest _ _ i c Hi Hc Hmin).
  - intros Hnone. now rewrite (first_rule_none _ _ Hnone).
Qed.

(** The value 300 lies in the 16-bit, the 12-bit and the 10-bit range and
    is normalized under the 16-bit rule; the value 40000 lies in no range
    and is normalized under the 8-bit rule. *)
Lemma precedence_law_witness :
  Axis.normalize5 300 = Axis.deadzone (Axis.clamp (Axis.rule16 300)) /\
  Axis.normalize5 40000 = Axis.deadzone (Axis.clamp (Axis.rule8 40000)).
Proof.
  split.
  - apply (proj1 (proj2 (precedence_law 300)) 1%nat
             {| Axis.lo := -32768; Axis.hi := 32767; Axis.rule := Axis.rule16 |});
      [reflexivity | reflexivity |].
    intros j c' Hj Hc'.
    destruct j as [| j]; [| lia].
    injection Hc' as <-. reflexivity.
  - apply (proj2 (proj2 (precedence_law 40000))).
    intros c Hc. unfold Axis.precedence in Hc.
    repeat (apply elem_of_cons in Hc as [-> | Hc]; [reflexivity |]).
    now apply not_elem_of_nil in Hc.
Defined.

(** C10: the five-branch chain and the three-branch chain return the same
    result on every raw value; the 12-bit and the 10-bit branch are never
    reached, since no value fails the 8-bit and the 16-bit test and then
    passes the 12-bit or the 10-bit test. *)
Theorem five_branch_equals_three_branch :
  forall value : Z,
    Axis.infer5 value = Axis.infer3 value /\
    Axis.normalize5 value = Axis.normalize3 value /\
    negb (Axis.in8 value) && negb (Axis.in16 value)
      && (Axis.in12 value || Axis.in10 value) = false.
Proof.
  intros value.
  split; [apply infer5_infer3 | split; [apply normalize5_normalize3 |]].
  destruct (Axis.in16 value) eqn:H16.
  - now rewrite andb_false_r.
  - destruct (beyond16_beyond12_and_10 value H16) as [-> ->].
    now rewrite andb_false_r.
Qed.

(** ** State mapper *)


Section MapperFacts.
Import Input Level Mapping MachineInt.

Lemma getD_setD (d d' : Digital) (v : Z) (c : ControllerInput) :
  getD d' (setD d v c) = if decide (d = d') then v else getD d' c.
Proof. destruct d'; reflexivity. Qed.

Lemma getA_setD (d : Digital) (a : Analog) (v : Z) (c : ControllerInput) :
  getA a (setD d v c) = getA a c.
Proof. destruct a; reflexivity. Qed.

Lemma getA_setA (a a' : Analog) (x : float) (c : ControllerInput) :
  getA a' (setA a x c) = if decide (a = a') then x else getA a' c.
Proof. destruct a'; reflexivity. Qed.

Lemma getD_setA (a : Analog) (d : Digital) (x : float) (c : ControllerInput) :
  getD d (setA a x c) = getD d c.
Proof. destruct d; reflexivity. Qed.

Lemma get_setD_other (d : Digital) (v : Z) (c : ControllerInput) (g : Field) :
  g <> D d -> get g (setD d v c) = get g c.
Proof.
  destruct g as [d' | a]; intros Hne; simpl.
  - rewrite getD_setD. case_decide; [congruence | reflexivity].
  - now rewrite getA_setD.
Qed.

Lemma get_setA_other (a : Analog) (x : float) (c : ControllerInput) (g : Field) :
  g <> A a -> get g (setA a x c) = get g c.
Proof.
  destruct g as [d | a']; intros Hne; simpl.
  - now rewrite getD_setA.
  - rewrite getA_setA. case_decide; [congruence | reflexivity].
Qed.

Lemma get_setInput_other (d : Digital) (p : bool) (c : ControllerInput) (g : Field) :
  g <> D d -> get g (setInput d p c) = get g c.
Proof. unfold setInput. destruct p; apply get_setD_other. Qed.

Lemma get_hat_other (neg pos : Digital) (v : Z) (c : ControllerInput) (g : Field) :
  g <> D neg -> g <> D pos -> get g (hat neg pos v c) = get g c.
Proof.
  intros Hn Hp. unfold hat.
  destruct (v <? 0); [| destruct (0 <? v)];
    now rewrite !get_setD_other.
Qed.

(** [setInput] leaves 0 or 1 in its field. *)
Lemma getD_setInput (d d' : Digital) (p : bool) (c : ControllerInput) :
  getD d' (setInput d p c)
  = if decide (d = d') then (if p then 1 else 0) else getD d' c.
Proof. unfold setInput. destruct p; apply getD_setD. Qed.

End MapperFacts.

(** Case analysis on every test [a =? b] of the goal. *)
Ltac split_codes :=
  repeat match goal with
         | |- context [?a =? ?b] => destruct (Z.eqb_spec a b); subst; simpl
         end.

Section MapperTheorems.
Import Input Level Mapping MachineInt.

Lemma abs_switch_single_eq (x : float) (code value : Z) (con : ControllerInput) :
  abs_switch_single x code value con = abs_switch x code value con.
Proof. unfold abs_switch_single, abs_switch. split_codes; reflexivity. Qed.

(** The two level-mode programs map every event in the same way. *)
Lemma single_handles_as_multi (eventType code value : Z) (con : ControllerInput) :
  Single.handleInputEvent eventType code value con
  = Multi.handleInputEvent eventType code value con.
Proof.
  unfold Single.handleInputEvent, Multi.handleInputEvent.
  rewrite normalize5_normalize3, abs_switch_single_eq.
  destruct (eventType =? EV_KEY); [reflexivity |].
  destruct (eventType =? EV_ABS); [reflexivity |].
  now destruct (eventType =? EV_SYN).
Qed.

Lemma frame_multi (eventType code value : Z) (con : ControllerInput) (g : Field) :
  g ∉ written eventType code ->
  get g (Multi.handleInputEvent eventType code value con) = get g con.
Proof.
  unfold Multi.handleInputEvent, written, key_switch, abs_switch,
    EV_KEY, EV_ABS.
  split_codes; intros Hg; try reflexivity;
    repeat (apply not_elem_of_cons in Hg as [? Hg]);
    first [ now apply get_setInput_other
          | now apply get_setD_other
          | now apply get_setA_other
          | now apply get_hat_other ].
Qed.

Lemma unknown_multi (eventType code value : Z) (con : ControllerInput) :
  written eventType code = [] ->
  Multi.handleInputEvent eventType code value con = con.
Proof.
  unfold Multi.handleInputEvent, written, key_switch, abs_switch,
    EV_KEY, EV_ABS.
  split_codes; intros H; first [discriminate H | reflexivity].
Qed.

Lemma written_at_most_two (eventType code : Z) :
  (length (written eventType code) <= 1)%nat \/
  (eventType = EV_ABS /\ (code = 16 \/ code = 17) /\
   length (written eventType code) = 2%nat).
Proof.
  unfold written, EV_KEY, EV_ABS.
  split_codes; first [left; simpl; lia | right; simpl; intuition lia].
Qed.

End MapperTheorems.

(** ** Event decoder *)

Section DecoderFacts.
Import MachineInt Decoder.

(** Bits that do not overlap add up. *)
Lemma lor_shiftl_add (a k n : Z) :
  0 <= n -> 0 <= a < 2 ^ n -> Z.lor a (Z.shiftl k n) = a + k * 2 ^ n.
Proof.
  intros Hn Ha.
  assert (Hland : Z.land a (Z.shiftl k n) = 0).
  { apply Z.bits_inj'. intros i Hi.
    rewrite Z.land_spec, Z.bits_0.
    destruct (Z.lt_ge_cases i n) as [Hlt | Hge].
    - rewrite Z.shiftl_spec_low by exact Hlt. apply andb_false_r.
    - assert (Z.testbit a i = false) as ->; [| reflexivity].
      destruct (Z.eq_dec a 0) as [-> | Hne]; [apply Z.bits_0 |].
      apply Z.bits_above_log2; [lia |].
      apply Z.log2_lt_pow2; [lia |].
      apply Z.lt_le_trans with (2 ^ n); [lia |].
      apply Z.pow_le_mono_r; lia. }
  rewrite <- Z.lxor_lor by exact Hland.
  rewrite <- Z.add_nocarry_lxor by exact Hland.
  now rewrite Z.shiftl_mul_pow2.
Qed.

Lemma at_byte (buffer : list Byte.byte) (i : nat) : 0 <= at_ buffer i <= 255.
Proof.
  unfold at_. pose proof (Byte.to_N_bounded (nth i buffer Byte.x00)). lia.
Qed.

(** The [uint16] expression of the loops on two bytes. *)
Lemma combine16 (b0 b1 : Z) :
  0 <= b0 <= 255 -> 0 <= b1 <= 255 ->
  Z.lor (uint16 b0) (uint16 (Z.shiftl (uint16 b1) 8)) = le_unsigned16 b0 b1.
Proof.
  intros H0 H1. unfold uint16, le_unsigned16.
  rewrite (Z.mod_small b0), (Z.mod_small b1) by lia.
  rewrite Z.shiftl_mul_pow2 by lia.
  rewrite (Z.mod_small (b1 * 2 ^ 8)) by lia.
  rewrite <- (Z.shiftl_mul_pow2 b1 8) by lia.
  rewrite lor_shiftl_add by lia. lia.
Qed.

Lemma int32_small (v : Z) : -2147483648 <= v <= 2147483647 -> int32 v = v.
Proof. intros H. unfold int32. rewrite Z.mod_small by lia. lia. Qed.

(** The top byte after the [int32] shift: bytes from 128 on wrap to the
    negative numbers. *)
Lemma int32_top_byte (b3 : Z) :
  0 <= b3 <= 255 ->
  int32 (Z.shiftl (int32 b3) 24)
  = Z.shiftl (if b3 <? 128 then b3 else b3 - 256) 24.
Proof.
  intros H. rewrite (int32_small b3) by lia.
  rewrite !Z.shiftl_mul_pow2 by lia.
  destruct (Z.ltb_spec b3 128) as [Hlt | Hge].
  - apply int32_small. lia.
  - unfold int32.
    replace (b3 * 2 ^ 24 + 2147483648)
      with ((b3 - 256) * 2 ^ 24 + 2147483648 + 1 * 4294967296) by lia.
    rewrite Z.mod_add by lia. rewrite Z.mod_small by lia. lia.
Qed.

(** The [int32] expression of the loops on four bytes. *)
Lemma combine32 (b0 b1 b2 b3 : Z) :
  0 <= b0 <= 255 -> 0 <= b1 <= 255 -> 0 <= b2 <= 255 -> 0 <= b3 <= 255 ->
  Z.lor (Z.lor (Z.lor (int32 b0) (int32 (Z.shiftl (int32 b1) 8)))
               (int32 (Z.shiftl (int32 b2) 16)))
        (int32 (Z.shiftl (int32 b3) 24))
  = le_signed32 b0 b1 b2 b3.
Proof.
  intros H0 H1 H2 H3.
  rewrite int32_top_byte by exact H3.
  rewrite (int32_small b0), (int32_small b1), (int32_small b2) by lia.
  rewrite (int32_small (Z.shiftl b1 8)), (int32_small (Z.shiftl b2 16))
    by (rewrite Z.shiftl_mul_pow2; lia).
  rewrite (lor_shiftl_add b0 b1 8) by lia.
  rewrite (lor_shiftl_add _ b2 16) by lia.
  rewrite (lor_shiftl_add _ _ 24) by lia.
  unfold le_signed32.
  destruct (Z.ltb_spec b3 128) as [Hlt | Hge].
  - destruct (Z.ltb_spec (b0 + 256 * b1 + 65536 * b2 + 16777216 * b3) 2147483648);
      lia.
  - destruct (Z.ltb_spec (b0 + 256 * b1 + 65536 * b2 + 16777216 * b3) 2147483648);
      lia.
Qed.

Lemma parse_layout (buffer : list Byte.byte) : parse buffer = layout buffer.
Proof.
  unfold parse, layout.
  rewrite !combine16, combine32 by apply at_byte. reflexivity.
Qed.

(** The decoded fields fit their Go types. *)
Lemma layout_types (buffer : list Byte.byte) :
  is_uint16 (layout buffer).1.1 /\ is_uint16 (layout buffer).1.2 /\
  is_int32 (layout buffer).2.
Proof.
  unfold layout, is_uint16, is_int32, le_unsigned16, le_signed32; simpl.
  pose proof (at_byte buffer 16). pose proof (at_byte buffer 17).
  pose proof (at_byte buffer 18). pose proof (at_byte buffer 19).
  pose proof (at_byte buffer 20). pose proof (at_byte buffer 21).
  pose proof (at_byte buffer 22). pose proof (at_byte buffer 23).
  repeat split; try lia;
    destruct (Z.ltb_spec (at_ buffer 20 + 256 * at_ buffer 21
                          + 65536 * at_ buffer 22 + 16777216 * at_ buffer 23)
                         2147483648); lia.
Qed.

(** The timestamp bytes do not reach the result. *)
Lemma layout_ignores_timestamp (timestamp timestamp' rest : list Byte.byte) :
  length timestamp = 16%nat -> length timestamp' = 16%nat ->
  layout (timestamp ++ rest) = layout (timestamp' ++ rest).
Proof.
  intros H H'. unfold layout, at_.
  rewrite !(app_nth2 timestamp), !(app_nth2 timestamp') by lia.
  now rewrite H, H'.
Qed.

(** A read that fills the buffer leaves exactly its bytes there. *)
Lemma fill_full (r : Read) (buffer : list Byte.byte) :
  length (data r) = length buffer -> fill r buffer = data r.
Proof.
  intros H. unfold fill.
  rewrite drop_ge by lia. rewrite app_nil_r.
  rewrite <- H. apply firstn_all.
Qed.

Lemma fill_length (r : Read) (buffer : list Byte.byte) :
  (length (data r) <= length buffer)%nat ->
  length (fill r buffer) = length buffer.
Proof.
  intros H. unfold fill.
  rewrite length_take, length_app, length_drop. lia.
Qed.

End DecoderFacts.

(** C8: for every 24-byte buffer the decoder returns the type as the
    2-byte little-endian unsigned integer at offset 16, the code as the
    one at offset 18 and the value as the 4-byte little-endian
    two's-complement signed integer at offset 20, whatever the 16
    timestamp bytes are; a read that returns a byte count other than 24
    leaves the controller input as it was, and the loop goes on with the
    next read. *)
Theorem decoder_contract :
  forall buffer : list Byte.byte,
    length buffer = 24%nat ->
    Decoder.parse buffer
    = (Decoder.le_unsigned16 (Decoder.at_ buffer 16) (Decoder.at_ buffer 17),
       Decoder.le_unsigned16 (Decoder.at_ buffer 18) (Decoder.at_ buffer 19),
       Decoder.le_signed32 (Decoder.at_ buffer 20) (Decoder.at_ buffer 21)
                           (Decoder.at_ buffer 22) (Decoder.at_ buffer 23)) /\
    (forall timestamp : list Byte.byte,
        length timestamp = 16%nat ->
        Decoder.parse (timestamp ++ drop 16 buffer) = Decoder.parse buffer) /\
    (forall (r : Decoder.Read) (input : Input.ControllerInput)
            (cm : Multi.ControllerManager) (playerNum : Z)
            (rest : list (Multi.ControllerManager * Decoder.Read)),
        Decoder.count r <> Decoder.eventSize ->
        is_Some (Multi.controllers cm !! playerNum) ->
        let l := {| Decoder.buffer := buffer; Decoder.con := input |} in
        let l' := {| Decoder.buffer := Decoder.fill r buffer;
                     Decoder.con := input |} in
        Multi.iteration cm playerNum r l = Multi.Continue l' /\
        Multi.loop playerNum ((cm, r) :: rest) l = Multi.loop playerNum rest l' /\
        Single.iteration r l = l').
Proof.
  intros buffer Hlen. split; [apply parse_layout | split].
  - intros timestamp Hts. rewrite !parse_layout.
    rewrite <- (take_drop 16 buffer) at 2.
    apply layout_ignores_timestamp; [exact Hts |].
    rewrite length_take. lia.
  - intros r input cm playerNum rest Hn [c Hc] l l'.
    assert (Hneq : negb (Decoder.count r =? Decoder.eventSize) = true).
    { apply negb_true_iff. now apply Z.eqb_neq. }
    assert (Hit : Multi.iteration cm playerNum r l = Multi.Continue l').
    { unfold Multi.iteration. rewrite Hc, Hneq. subst l l'; simpl.
      now destruct (Decoder.failed r). }
    split; [exact Hit | split].
    + simpl. now rewrite Hit.
    + unfold Single.iteration. rewrite Hneq. subst l l'; simpl.
      now destruct (Decoder.failed r).
Qed.

(** The record with type 3, code 1 and value 200 is decoded as such
    whatever its timestamp, and a read of ten bytes is dropped by a reader
    whose slot is registered. *)
Lemma decoder_contract_witness :
  length axis_record = 24%nat /\
  Decoder.parse axis_record = (3, 1, 200) /\
  Decoder.parse (repeat Byte.x00 16 ++ drop 16 axis_record)
  = Decoder.parse axis_record /\
  Decoder.count short_read <> Decoder.eventSize /\
  is_Some (Multi.controllers one_session !! 1) /\
  Multi.iteration one_session 1 short_read
    {| Decoder.buffer := axis_record; Decoder.con := dpad_right |}
  = Multi.Continue
      {| Decoder.buffer := Decoder.fill short_read axis_record;
         Decoder.con := dpad_right |}.
Proof.
  destruct (decoder_contract axis_record eq_refl) as (Hparse & Hts & Hshort).
  assert (Hcount : Decoder.count short_read <> Decoder.eventSize)
    by (vm_compute; discriminate).
  assert (Hreg : is_Some (Multi.controllers one_session !! 1))
    by (eexists; reflexivity).
  split; [reflexivity | split; [| split; [| split; [| split]]]].
  - rewrite Hparse. reflexivity.
  - apply Hts. reflexivity.
  - exact Hcount.
  - exact Hreg.
  - exact (proj1 (Hshort short_read dpad_right one_session 1 [] Hcount Hreg)).
Defined.

(** ** State mapper: frame and invariants *)

(** C5, as amended: an event writes only the fields its code is mapped
    to, which is one field for a button, a stick press or a stick axis
    and the two direction fields of the axis for a d-pad axis (codes 16
    and 17); every other field is unchanged; an event whose code is
    outside the mapping, or whose type is neither key nor absolute axis,
    leaves the whole state unchanged.  Both level-mode programs agree. *)
Theorem mapper_frame :
  forall (eventType code value : Z) (con : Input.ControllerInput),
    (forall g : Input.Field,
        g ∉ Mapping.written eventType code ->
        Input.get g (Multi.handleInputEvent eventType code value con)
        = Input.get g con) /\
    (Mapping.written eventType code = [] ->
     Multi.handleInputEvent eventType code value con = con) /\
    Single.handleInputEvent eventType code value con
    = Multi.handleInputEvent eventType code value con /\
    ((length (Mapping.written eventType code) <= 1)%nat \/
     (eventType = Level.EV_ABS /\ (code = 16 \/ code = 17) /\
      length (Mapping.written eventType code) = 2%nat)).
Proof.
  intros eventType code value con.
  split; [| split; [| split]].
  - intros g Hg. now apply frame_multi.
  - apply unknown_multi.
  - apply single_handles_as_multi.
  - apply written_at_most_two.
Qed.

(** A press of A (type 1, code 304) leaves B as it was, and a key event
    with the unmapped code 330 leaves the whole state as it was. *)
Lemma mapper_frame_witness :
  Input.get (Input.D Input.ButtonB) (Multi.handleInputEvent 1 304 1 dpad_right)
  = Input.get (Input.D Input.ButtonB) dpad_right /\
  Multi.handleInputEvent 1 330 1 dpad_right = dpad_right.
Proof.
  split.
  - apply (proj1 (mapper_frame 1 304 1 dpad_right)).
    intros H. apply elem_of_cons in H as [H | H]; [discriminate H |].
    now apply not_elem_of_nil in H.
  - apply (proj1 (proj2 (mapper_frame 1 330 1 dpad_right))). reflexivity.
Defined.


(** C5, as stated, fails: the event (type 3, code 16, value -1) has a
    known code and changes two fields of the state, Dpad.Left and
    Dpad.Right, so no single field accounts for the change. *)
Lemma dpad_event_changes_two_fields :
  ~ (exists f : Input.Field,
        forall g : Input.Field,
          g <> f ->
          Input.get g (Multi.handleInputEvent 3 16 (-1) dpad_right)
          = Input.get g dpad_right).
Proof.
  intros [f H].
  destruct (decide (f = Input.D Input.DpadLeft)) as [-> | Hne].
  - specialize (H (Input.D Input.DpadRight) ltac:(discriminate)).
    vm_compute in H. discriminate H.
  - specialize (H (Input.D Input.DpadLeft) ltac:(congruence)).
    vm_compute in H. discriminate H.
Qed.

Section InvariantFacts.
Import Input Level MachineInt.

(** The fields that go through [setInput] or the d-pad assignments keep
    to 0 and 1. *)
Lemma buttons_and_dpad_stay_binary
    (eventType code value : Z) (con : ControllerInput) (d : Digital) :
  d <> StickLeftPress -> d <> StickRightPress ->
  binary d con ->
  binary d (Multi.handleInputEvent eventType code value con).
Proof.
  intros Hl Hr Hb. unfold binary in *.
  unfold Multi.handleInputEvent, key_switch, abs_switch, hat, EV_KEY, EV_ABS.
  split_codes; try assumption;
    repeat match goal with
           | |- context [if ?b then _ else _] =>
             match b with
             | _ <? _ => destruct b
             end
           end;
    rewrite ?getD_setInput, ?getD_setD, ?getD_setA;
    repeat case_decide; subst; try congruence; auto;
    destruct (0 <? value); auto.
Qed.


(** On the 16-bit range every stick value the normalizer produces, and
    its negation, lies in [-1, 1]. *)
Lemma normalized_in_unit_16bit (v : Z) :
  -32768 <= v <= 32767 ->
  Axis.in_unit (Axis.normalize3 v) = true /\
  Axis.in_unit (- Axis.normalize3 v)%float = true.
Proof.
  intros H.
  assert (Hall : forall_between
            (fun v => Axis.in_unit (Axis.normalize3 v)
                      && Axis.in_unit (- Axis.normalize3 v)%float)
            (-32768) 32767 = true) by (vm_compute; reflexivity).
  apply andb_true_iff. exact (forall_between_spec _ _ _ Hall v H).
Qed.

End InvariantFacts.

(** C4 fails on the code: a key event with code 317 (or 318) stores
    [uint8(value)] in the stick-press field, so the value 2 leaves the
    field at 2, which is neither 0 nor 1; the same holds in both
    level-mode programs, and the read loop delivers such an event from a
    well-formed 24-byte record. *)
Theorem stick_press_stores_raw_value :
  Input.Stick_Left_Press (Multi.handleInputEvent 1 317 2 Input.zero) = 2 /\
  ~ Input.binary Input.StickLeftPress
      (Multi.handleInputEvent 1 317 2 Input.zero) /\
  Input.Stick_Right_Press (Multi.handleInputEvent 1 318 255 Input.zero) = 255 /\
  ~ Input.binary Input.StickRightPress
      (Single.handleInputEvent 1 318 255 Input.zero) /\
  (forall (value : Z) (con : Input.ControllerInput),
      Input.Stick_Left_Press (Multi.handleInputEvent 1 317 value con)
      = MachineInt.uint8 value) /\
  Decoder.parse stick_press_record = (1, 317, 2) /\
  Multi.iteration one_session 1
    {| Decoder.data := stick_press_record; Decoder.failed := false |}
    {| Decoder.buffer := Decoder.fresh_buffer; Decoder.con := Input.zero |}
  = Multi.Continue
      {| Decoder.buffer := stick_press_record;
         Decoder.con := Multi.handleInputEvent 1 317 2 Input.zero |}.
Proof.
  repeat split; try reflexivity;
    try (unfold Input.binary; vm_compute; intros [H | H]; discriminate H).
Qed.

(** ** Session manager *)

Section ManagerFacts.
Import Multi.

Lemma add_out_of_range (w : World) (cm : ControllerManager) (slot : Z)
    (e s : string) :
  slot < 1 \/ 8 < slot ->
  AddController w cm slot e s = fail (PlayerOutOfRange slot) cm.
Proof.
  intros H. unfold AddController.
  assert ((slot <? 1) || (8 <? slot) = true) as ->; [| reflexivity].
  apply orb_true_iff. rewrite !Z.ltb_lt. exact H.
Qed.

Lemma add_in_range (slot : Z) :
  1 <= slot <= 8 -> (slot <? 1) || (8 <? slot) = false.
Proof. intros H. apply orb_false_iff. rewrite !Z.ltb_ge. lia. Qed.

Lemma add_duplicate (w : World) (cm : ControllerManager) (slot : Z)
    (e s : string) (c : Controller) :
  1 <= slot <= 8 -> controllers cm !! slot = Some c ->
  AddController w cm slot e s = fail (AlreadyExists slot) cm.
Proof.
  intros Hr Hc. unfold AddController.
  now rewrite (add_in_range slot Hr), Hc.
Qed.

(** What a successful [AddController] has done. *)
Lemma add_success (w : World) (cm : ControllerManager) (slot : Z) (e s : string) :
  result (AddController w cm slot e s) = None ->
  1 <= slot <= 8 /\
  controllers cm !! slot = None /\
  connect_error w e = None /\
  manager (AddController w cm slot e s)
  = {| controllers :=
         <[slot := {| path := e; LogLevel := logLevel cm |}]> (controllers cm);
       devices := <[slot := s]> (devices cm);
       logLevel := logLevel cm |}.
Proof.
  unfold AddController.
  destruct ((slot <? 1) || (8 <? slot)) eqn:Hr; [discriminate |].
  apply orb_false_iff in Hr. rewrite !Z.ltb_ge in Hr.
  destruct (controllers cm !! slot) eqn:Hc; [discriminate |].
  destruct (connect_error w e) eqn:Hw; [discriminate |].
  intros _. repeat split; first [lia | reflexivity].
Qed.

(** What a failed [AddController] has done: nothing. *)
Lemma add_failure (w : World) (cm : ControllerManager) (slot : Z) (e s : string)
    (err : Error) :
  result (AddController w cm slot e s) = Some err ->
  AddController w cm slot e s = fail err cm /\
  (err = PlayerOutOfRange slot \/ err = AlreadyExists slot \/
   exists msg, err = ConnectFailed slot msg /\ connect_error w e = Some msg).
Proof.
  unfold AddController.
  destruct ((slot <? 1) || (8 <? slot)).
  { intros [= <-]. auto. }
  destruct (controllers cm !! slot).
  { intros [= <-]. auto. }
  destruct (connect_error w e) as [msg |] eqn:Hw; [| discriminate].
  intros [= <-]. split; [reflexivity |]. right. right. now exists msg.
Qed.

(** [AddController] never asks whether the input source can be opened. *)
Lemma add_ignores_source (connect : string -> option string)
    (open1 open2 : string -> bool) (cm : ControllerManager) (slot : Z)
    (e s : string) :
  AddController {| connect_error := connect; can_open := open1 |} cm slot e s
  = AddController {| connect_error := connect; can_open := open2 |} cm slot e s.
Proof. reflexivity. Qed.

Lemma close_effects (cm : ControllerManager) (n : Z) (c : Controller) :
  controllers cm !! n = Some c -> Closed c ∈ (Close cm).2.
Proof.
  intros H. unfold Close; simpl.
  apply list_elem_of_fmap. exists (n, c). split; [reflexivity |].
  now apply elem_of_map_to_list.
Qed.

Lemma close_effects_only (cm : ControllerManager) (eff : Effect) :
  eff ∈ (Close cm).2 ->
  exists n c, eff = Closed c /\ controllers cm !! n = Some c.
Proof.
  unfold Close; simpl. intros H.
  apply list_elem_of_fmap in H as [[n c] [-> H]].
  exists n, c. split; [reflexivity |]. now apply elem_of_map_to_list.
Qed.

Lemma close_empty (cm : ControllerManager) :
  controllers cm = ∅ -> devices cm = ∅ -> Close cm = (cm, []).
Proof.
  destruct cm as [cs ds lv]; simpl. intros -> ->.
  unfold Close; simpl. now rewrite map_to_list_empty.
Qed.

End ManagerFacts.

(** C6: [add] with a slot below 1 or above 8 fails with the range error
    and registers nothing; after a successful [add] a second [add] for the
    same slot fails with the duplicate error and leaves the registry as
    it was, holding for that slot the one session registered before. *)
Theorem add_range_and_duplicate :
  forall (w : Multi.World) (cm : Multi.ControllerManager) (slot : Z)
         (e s : string),
    (slot < 1 \/ 8 < slot ->
     Multi.AddController w cm slot e s
     = {| Multi.result := Some (Multi.PlayerOutOfRange slot);
          Multi.manager := cm; Multi.effects := [] |}) /\
    (forall (w' : Multi.World) (e' s' : string),
        Multi.result (Multi.AddController w cm slot e s) = None ->
        let cm1 := Multi.manager (Multi.AddController w cm slot e s) in
        Multi.AddController w' cm1 slot e' s'
        = {| Multi.result := Some (Multi.AlreadyExists slot);
             Multi.manager := cm1; Multi.effects := [] |} /\
        Multi.controllers cm1 !! slot
        = Some {| Multi.path := e; Multi.LogLevel := Multi.logLevel cm |} /\
        Multi.devices cm1 !! slot = Some s) /\
    (forall c : Multi.Controller,
        1 <= slot <= 8 ->
        Multi.controllers cm !! slot = Some c ->
        Multi.AddController w cm slot e s
        = {| Multi.result := Some (Multi.AlreadyExists slot);
             Multi.manager := cm; Multi.effects := [] |}).
Proof.
  intros w cm slot e s. split; [| split].
  - apply add_out_of_range.
  - intros w' e' s' Hok cm1.
    destruct (add_success w cm slot e s Hok) as (Hr & _ & _ & Hm).
    assert (Hc : Multi.controllers cm1 !! slot
                 = Some {| Multi.path := e; Multi.LogLevel := Multi.logLevel cm |}).
    { subst cm1. rewrite Hm. simpl. apply lookup_insert_eq. }
    split; [| split].
    + exact (add_duplicate w' cm1 slot e' s' _ Hr Hc).
    + exact Hc.
    + subst cm1. rewrite Hm. simpl. apply lookup_insert_eq.
  - intros c Hr Hc. exact (add_duplicate w cm slot e s c Hr Hc).
Qed.



(** Slots 0 and 9 are refused, and so is a second [add] of slot 1. *)
Lemma add_range_and_duplicate_witness :
  Multi.result (Multi.AddController friendly one_session 0 "/dev/hidg1"
                                    "/dev/input/event3")
  = Some (Multi.PlayerOutOfRange 0) /\
  Multi.result (Multi.AddController friendly one_session 9 "/dev/hidg1"
                                    "/dev/input/event3")
  = Some (Multi.PlayerOutOfRange 9) /\
  Multi.AddController friendly one_session 1 "/dev/hidg1" "/dev/input/event3"
  = {| Multi.result := Some (Multi.AlreadyExists 1);
       Multi.manager := one_session; Multi.effects := [] |}.
Proof.
  pose proof (add_range_and_duplicate friendly one_session 0 "/dev/hidg1"
                "/dev/input/event3") as (H0 & _ & _).
  pose proof (add_range_and_duplicate friendly one_session 9 "/dev/hidg1"
                "/dev/input/event3") as (H9 & _ & _).
  pose proof (add_range_and_duplicate friendly (Multi.NewControllerManager 1) 1
                "/dev/hidg0" "/dev/input/event2") as (_ & Hdup & _).
  split; [| split].
  - rewrite H0 by lia. reflexivity.
  - rewrite H9 by lia. reflexivity.
  - exact (proj1 (Hdup friendly "/dev/hidg1" "/dev/input/event3" eq_refl)).
Defined.

(** C9: [Close] closes every registered controller and leaves the
    registry empty, so that every read loop returns at its next
    iteration; a second [Close], or a [Close] of an empty registry,
    closes nothing and leaves the same empty manager. *)
Theorem close_all_idempotent :
  forall cm : Multi.ControllerManager,
    Multi.controllers (Multi.Close cm).1 = ∅ /\
    Multi.devices (Multi.Close cm).1 = ∅ /\
    Multi.ListControllers (Multi.Close cm).1 = [] /\
    (forall (n : Z) (c : Multi.Controller),
        Multi.controllers cm !! n = Some c ->
        Multi.Closed c ∈ (Multi.Close cm).2) /\
    (forall (playerNum : Z) (r : Decoder.Read) (l : Decoder.Loop),
        Multi.iteration (Multi.Close cm).1 playerNum r l = Multi.Return) /\
    Multi.Close (Multi.Close cm).1 = ((Multi.Close cm).1, []) /\
    (Multi.controllers cm = ∅ -> Multi.devices cm = ∅ ->
     Multi.Close cm = (cm, [])).
Proof.
  intros cm.
  split; [reflexivity | split; [reflexivity | split; [| split; [| split; [| split]]]]].
  - unfold Multi.ListControllers; simpl. now rewrite map_to_list_empty.
  - apply close_effects.
  - intros playerNum r l. unfold Multi.iteration; simpl.
    now rewrite lookup_empty.
  - now apply close_empty.
  - apply close_empty.
Qed.

(** Closing the manager that holds slot 1 closes its controller and
    empties the registry; closing again changes nothing. *)
Lemma close_all_idempotent_witness :
  Multi.ListControllers one_session = [1] /\
  Multi.Close one_session
  = (Multi.NewControllerManager 1,
     [Multi.Closed {| Multi.path := "/dev/hidg0"; Multi.LogLevel := 1 |}]) /\
  Multi.Close (Multi.Close one_session).1 = (Multi.NewControllerManager 1, []).
Proof.
  split; [reflexivity | split; [reflexivity |]].
  exact (proj1 (proj2 (proj2 (proj2 (proj2 (proj2
           (close_all_idempotent one_session))))))).
Defined.






(** ** Pulse mode *)

Section PulseFacts.
Import Input Level Pulse.








(** A d-pad axis event off centre is one call of [setInput] on the
    direction it points to; the centre position is ignored. *)
Lemma dpad_press_pulses (value : Z) (m : Machine) :
  handleInputEvent EV_ABS 16 value m
  = (if value <? 0 then setInput DpadLeft m
     else if 0 <? value then setInput DpadRight m else m) /\
  handleInputEvent EV_ABS 17 value m
  = (if value <? 0 then setInput DpadUp m
     else if 0 <? value then setInput DpadDown m else m).
Proof. split; reflexivity. Qed.

(** A stick press schedules no timer. *)
Lemma stick_press_schedules_nothing (value : Z) (m : Machine) :
  timers (handleInputEvent EV_KEY 317 value m) = timers m /\
  timers (handleInputEvent EV_KEY 318 value m) = timers m.
Proof. split; reflexivity. Qed.

End PulseFacts.


(** C7 fails on the code: in pulse mode a press of the left stick sets
    the stick-press field to 1 and schedules no timer, so with no further
    event the field still reads 1 after 100 ms and after any other
    time. *)
Theorem stick_press_is_not_pulsed :
  Input.Stick_Left_Press (Pulse.con left_stick_pressed) = 1 /\
  Pulse.timers left_stick_pressed = [] /\
  Input.Stick_Left_Press (Pulse.con (Pulse.elapse 100 left_stick_pressed)) = 1 /\
  (forall dt : Z,
      Input.Stick_Left_Press (Pulse.con (Pulse.elapse dt left_stick_pressed)) = 1).
Proof. repeat split. Qed.

(** * Further properties of the programs *)

(** ** Session manager: removal, listing, lifecycle *)

Section LifecycleFacts.
Import Multi Lifecycle.

Lemma new_manager_consistent (lv : Z) : Consistent (NewControllerManager lv).
Proof.
  split; simpl.
  - intros n c H. now rewrite lookup_empty in H.
  - intros n. rewrite !lookup_empty. split; intros [x Hx]; discriminate.
  - intros n c H. now rewrite lookup_empty in H.
Qed.

Lemma add_consistent (w : World) (cm : ControllerManager) (n : Z) (e s : string) :
  Consistent cm -> Consistent (manager (AddController w cm n e s)).
Proof.
  intros [Hr Hs Hl].
  destruct (result (AddController w cm n e s)) as [err |] eqn:Hres.
  - destruct (add_failure w cm n e s err Hres) as [-> _]. now split.
  - destruct (add_success w cm n e s Hres) as (Hn & Hfree & _ & ->).
    split; simpl.
    + intros k c. rewrite lookup_insert. case_decide; [intros _; lia | apply Hr].
    + intros k. rewrite !lookup_insert. case_decide; [| apply Hs].
      split; intros _; eauto.
    + intros k c. rewrite lookup_insert.
      case_decide; [now intros [= <-] | apply Hl].
Qed.

Lemma remove_consistent (cm : ControllerManager) (n : Z) :
  Consistent cm -> Consistent (RemoveController cm n).1.
Proof.
  intros [Hr Hs Hl]. unfold RemoveController.
  destruct (controllers cm !! n) as [c0 |] eqn:Hc; simpl; [| now split].
  split; simpl.
  - intros k c. rewrite lookup_delete. case_decide; [discriminate | apply Hr].
  - intros k. rewrite !lookup_delete. case_decide; [| apply Hs].
    split; intros [x Hx]; discriminate.
  - intros k c. rewrite lookup_delete. case_decide; [discriminate | apply Hl].
Qed.

Lemma close_consistent (cm : ControllerManager) : Consistent (Close cm).1.
Proof.
  split; simpl.
  - intros n c H. now rewrite lookup_empty in H.
  - intros n. rewrite !lookup_empty. split; intros [x Hx]; discriminate.
  - intros n c H. now rewrite lookup_empty in H.
Qed.

Lemma step_consistent (st : ControllerManager * list Effect) (c : Call) :
  Consistent st.1 -> Consistent (step st c).1.
Proof.
  destruct c; simpl; intros H.
  - now apply add_consistent.
  - now apply remove_consistent.
  - apply close_consistent.
Qed.

Lemma fold_step_consistent (calls : list Call) :
  forall st, Consistent st.1 -> Consistent (fold_left step calls st).1.
Proof.
  induction calls as [| c calls IH]; intros st H; [exact H |].
  simpl. apply IH. now apply step_consistent.
Qed.

Lemma fold_step_logLevel (calls : list Call) :
  forall st, logLevel (fold_left step calls st).1 = logLevel st.1.
Proof.
  induction calls as [| c calls IH]; intros st; [reflexivity |].
  simpl. rewrite IH. destruct c; simpl; try reflexivity.
  - unfold AddController.
    destruct ((playerNum <? 1) || (8 <? playerNum)); [reflexivity |].
    destruct (controllers st.1 !! playerNum); [reflexivity |].
    now destruct (connect_error w hidgDevice).
  - unfold RemoveController.
    now destruct (controllers st.1 !! playerNum).
Qed.

(** A map whose keys all lie in 1..8 has at most eight entries. *)
Lemma at_most_eight {A : Type} (m : gmap Z A) :
  (forall n x, m !! n = Some x -> 1 <= n <= 8) -> (size m <= 8)%nat.
Proof.
  intros H.
  assert (Hsub : dom m ⊆ (list_to_set [1; 2; 3; 4; 5; 6; 7; 8] : gset Z)).
  { intros n Hn. apply elem_of_dom in Hn as [x Hx].
    specialize (H n x Hx).
    apply elem_of_list_to_set.
    assert (n = 1 \/ n = 2 \/ n = 3 \/ n = 4 \/ n = 5 \/ n = 6 \/ n = 7 \/ n = 8)
      as Hcases by lia.
    repeat (destruct Hcases as [-> | Hcases];
            [repeat (first [apply list_elem_of_here | apply list_elem_of_further]) |]).
    subst. repeat (first [apply list_elem_of_here | apply list_elem_of_further]). }
  rewrite <- size_dom.
  apply subseteq_size in Hsub.
  etransitivity; [exact Hsub |]. reflexivity.
Qed.

End LifecycleFacts.

(** X1: whatever the calls made on a new manager (adds in any world,
    removes, closes), its registry never holds a slot outside 1..8, never
    more than eight sessions, always an input device for exactly the
    registered slots, and every registered controller carries the
    manager's log level. *)
Theorem manager_always_consistent :
  forall (logLevel : Z) (calls : list Lifecycle.Call),
    let cm := (Lifecycle.run logLevel calls).1 in
    Lifecycle.Consistent cm /\
    (size (Multi.controllers cm) <= 8)%nat /\
    (length (Multi.ListControllers cm) <= 8)%nat /\
    dom (Multi.controllers cm) = dom (Multi.devices cm) /\
    Multi.logLevel cm = logLevel.
Proof.
  intros logLevel calls cm.
  assert (Hc : Lifecycle.Consistent cm).
  { apply (fold_step_consistent calls (Multi.NewControllerManager logLevel, [])).
    apply new_manager_consistent. }
  assert (Hsize : (size (Multi.controllers cm) <= 8)%nat).
  { apply at_most_eight. apply (Lifecycle.slots_in_range _ Hc). }
  split; [exact Hc | split; [exact Hsize | split; [| split]]].
  - unfold Multi.ListControllers. rewrite length_fmap, length_map_to_list.
    exact Hsize.
  - apply set_eq. intros n. rewrite !elem_of_dom.
    apply (Lifecycle.same_slots _ Hc).
  - subst cm. unfold Lifecycle.run. now rewrite fold_step_logLevel.
Qed.

Section RegistryFacts.
Import Multi Lifecycle.

Lemma remove_absent (cm : ControllerManager) (n : Z) :
  controllers cm !! n = None -> RemoveController cm n = (cm, []).
Proof. intros H. unfold RemoveController. now rewrite H. Qed.

Lemma remove_present (cm : ControllerManager) (n : Z) (c : Controller) :
  controllers cm !! n = Some c ->
  RemoveController cm n
  = ({| controllers := delete n (controllers cm);
        devices := delete n (devices cm);
        logLevel := logLevel cm |}, [Closed c]).
Proof. intros H. unfold RemoveController. now rewrite H. Qed.

Lemma remove_frees_slot (cm : ControllerManager) (n : Z) :
  controllers (RemoveController cm n).1 !! n = None.
Proof.
  destruct (controllers cm !! n) as [c |] eqn:Hc.
  - rewrite (remove_present _ _ _ Hc). simpl. apply lookup_delete_eq.
  - now rewrite (remove_absent _ _ Hc).
Qed.

Lemma remove_keeps_others (cm : ControllerManager) (n other : Z) :
  other <> n ->
  controllers (RemoveController cm n).1 !! other = controllers cm !! other /\
  devices (RemoveController cm n).1 !! other = devices cm !! other.
Proof.
  intros Hne. destruct (controllers cm !! n) as [c |] eqn:Hc.
  - rewrite (remove_present _ _ _ Hc). simpl. now rewrite !lookup_delete_ne.
  - now rewrite (remove_absent _ _ Hc).
Qed.

Lemma add_keeps_others (w : World) (cm : ControllerManager) (n other : Z)
    (e s : string) :
  other <> n ->
  controllers (manager (AddController w cm n e s)) !! other
  = controllers cm !! other /\
  devices (manager (AddController w cm n e s)) !! other = devices cm !! other.
Proof.
  intros Hne.
  destruct (result (AddController w cm n e s)) as [err |] eqn:Hres.
  - destruct (add_failure w cm n e s err Hres) as [-> _]. split; reflexivity.
  - destruct (add_success w cm n e s Hres) as (_ & _ & _ & ->). simpl.
    now rewrite !lookup_insert_ne by congruence.
Qed.

Lemma connected_app (e1 e2 : list Effect) :
  connected (e1 ++ e2) = connected e1 ++ connected e2.
Proof. apply omap_app. Qed.

Lemma closed_app (e1 e2 : list Effect) :
  closed (e1 ++ e2) = closed e1 ++ closed e2.
Proof. apply omap_app. Qed.

Lemma closed_of_close (cm : ControllerManager) :
  closed (Close cm).2 = registered cm /\ connected (Close cm).2 = [].
Proof.
  unfold Close, registered; simpl.
  induction (map_to_list (controllers cm)) as [| [n c] l [IH1 IH2]];
    [split; reflexivity |].
  split.
  - unfold closed in *. simpl. f_equal. exact IH1.
  - exact IH2.
Qed.

(** One call keeps the balance between the handles connected, the
    handles closed and the handles registered. *)
Lemma step_balance (st : ControllerManager * list Effect) (c : Call) :
  connected st.2 ≡ₚ closed st.2 ++ registered st.1 ->
  connected (step st c).2 ≡ₚ closed (step st c).2 ++ registered (step st c).1.
Proof.
  intros H. destruct c as [w n e s | n |].
  - simpl. rewrite connected_app, closed_app.
    destruct (result (AddController w st.1 n e s)) as [err |] eqn:Hres.
    + destruct (add_failure w st.1 n e s err Hres) as [-> _]. simpl.
      now rewrite !app_nil_r.
    + destruct (add_success w st.1 n e s Hres) as (_ & Hfree & Hconn & Hm).
      rewrite Hm. unfold AddController.
      assert ((n <? 1) || (8 <? n) = false) as ->.
      { unfold AddController in Hres.
        destruct ((n <? 1) || (8 <? n)); [discriminate | reflexivity]. }
      rewrite Hfree, Hconn. simpl.
      unfold registered; simpl.
      rewrite (map_to_list_insert _ _ _ Hfree). simpl.
      rewrite H. unfold registered.
      rewrite app_nil_r.
      rewrite <- !app_assoc. apply Permutation_app_head.
      symmetry. apply Permutation_cons_append.
  - simpl. rewrite connected_app, closed_app.
    destruct (controllers st.1 !! n) as [c |] eqn:Hc.
    + rewrite (remove_present _ _ _ Hc). simpl.
      rewrite app_nil_r, H. unfold registered; simpl.
      rewrite <- (map_to_list_delete _ _ _ Hc). simpl.
      rewrite <- !app_assoc. apply Permutation_app_head. reflexivity.
    + rewrite (remove_absent _ _ Hc). simpl. now rewrite !app_nil_r.
  - change (step st CallClose) with ((Close st.1).1, st.2 ++ (Close st.1).2).
    cbn [fst snd]. rewrite connected_app, closed_app.
    destruct (closed_of_close st.1) as [-> ->].
    unfold registered at 2. simpl. rewrite map_to_list_empty. simpl.
    now rewrite !app_nil_r.
Qed.

Lemma fold_step_balance (calls : list Call) :
  forall st,
    connected st.2 ≡ₚ closed st.2 ++ registered st.1 ->
    connected (fold_left step calls st).2
    ≡ₚ closed (fold_left step calls st).2
       ++ registered (fold_left step calls st).1.
Proof.
  induction calls as [| c calls IH]; intros st H; [exact H |].
  simpl. apply IH. now apply step_balance.
Qed.

End RegistryFacts.

(** X2: [RemoveController] of a slot that is not registered changes
    nothing and closes nothing; of a registered slot it closes exactly the
    controller of that slot, frees the slot in both maps and leaves every
    other slot as it was. *)
Theorem remove_closes_one_session :
  forall (cm : Multi.ControllerManager) (playerNum : Z),
    (Multi.controllers cm !! playerNum = None ->
     Multi.RemoveController cm playerNum = (cm, [])) /\
    (forall c : Multi.Controller,
        Multi.controllers cm !! playerNum = Some c ->
        (Multi.RemoveController cm playerNum).2 = [Multi.Closed c]) /\
    Multi.controllers (Multi.RemoveController cm playerNum).1 !! playerNum = None /\
    (Multi.controllers cm !! playerNum <> None ->
     Multi.devices (Multi.RemoveController cm playerNum).1 !! playerNum = None) /\
    (forall other : Z,
        other <> playerNum ->
        Multi.controllers (Multi.RemoveController cm playerNum).1 !! other
        = Multi.controllers cm !! other /\
        Multi.devices (Multi.RemoveController cm playerNum).1 !! other
        = Multi.devices cm !! other).
Proof.
  intros cm n.
  split; [apply remove_absent | split; [| split; [| split]]].
  - intros c Hc. now rewrite (remove_present _ _ _ Hc).
  - apply remove_frees_slot.
  - intros Hreg.
    destruct (Multi.controllers cm !! n) as [c |] eqn:Hc; [| congruence].
    rewrite (remove_present _ _ _ Hc). simpl. apply lookup_delete_eq.
  - intros other Hne. now apply remove_keeps_others.
Qed.

(** Removing slot 1 from the manager that holds it closes its controller
    and leaves an empty registry; removing slot 2 does nothing. *)
Lemma remove_closes_one_session_witness :
  Multi.RemoveController one_session 2 = (one_session, []) /\
  (Multi.RemoveController one_session 1).2
  = [Multi.Closed {| Multi.path := "/dev/hidg0"; Multi.LogLevel := 1 |}].
Proof.
  split.
  - exact (proj1 (remove_closes_one_session one_session 2) eq_refl).
  - exact (proj1 (proj2 (remove_closes_one_session one_session 1)) _ eq_refl).
Defined.

(** X3: on a manager built by calls, a successful [AddController]
    followed by [RemoveController] of the same slot gives back the manager
    as it was before the two calls, and the handle that was connected is
    the one that is closed. *)
Theorem add_then_remove_restores :
  forall (logLevel : Z) (calls : list Lifecycle.Call) (w : Multi.World)
         (playerNum : Z) (hidgDevice inputDevice : string),
    let cm := (Lifecycle.run logLevel calls).1 in
    let o := Multi.AddController w cm playerNum hidgDevice inputDevice in
    Multi.result o = None ->
    Multi.RemoveController (Multi.manager o) playerNum
    = (cm, [Multi.Closed {| Multi.path := hidgDevice;
                            Multi.LogLevel := logLevel |}]) /\
    In (Multi.Connected {| Multi.path := hidgDevice;
                           Multi.LogLevel := logLevel |}) (Multi.effects o).
Proof.
  intros lv calls w n e s cm o Hok.
  assert (Hc : Lifecycle.Consistent cm).
  { apply (fold_step_consistent calls (Multi.NewControllerManager lv, [])).
    apply new_manager_consistent. }
  assert (Hlv : Multi.logLevel cm = lv).
  { subst cm. unfold Lifecycle.run. now rewrite fold_step_logLevel. }
  destruct (add_success w cm n e s Hok) as (_ & Hfree & Hconn & Hm).
  assert (Hdev : Multi.devices cm !! n = None).
  { destruct (Multi.devices cm !! n) eqn:Hd; [| reflexivity].
    assert (is_Some (Multi.controllers cm !! n)) as [x Hx]
      by (apply (Lifecycle.same_slots _ Hc); eauto).
    congruence. }
  split.
  - subst o. rewrite Hm.
    erewrite remove_present by (simpl; apply lookup_insert_eq).
    simpl. rewrite !delete_insert_eq.
    rewrite (delete_id _ _ Hfree), (delete_id _ _ Hdev).
    clearbody cm. destruct cm as [cs ds l]. simpl in *. now subst.
  - subst o. clearbody cm. unfold Multi.AddController in *.
    destruct ((n <? 1) || (8 <? n)); [discriminate |].
    rewrite Hfree, Hconn. simpl. left. now rewrite Hlv.
Qed.

(** Adding slot 2 to the manager that holds slot 1 and removing it again
    gives that manager back. *)
Lemma add_then_remove_restores_witness :
  Multi.RemoveController
    (Multi.manager
       (Multi.AddController friendly one_session 2 "/dev/hidg1"
                            "/dev/input/event3")) 2
  = (one_session,
     [Multi.Closed {| Multi.path := "/dev/hidg1"; Multi.LogLevel := 1 |}]).
Proof.
  exact (proj1 (add_then_remove_restores 1
                  [Lifecycle.CallAdd friendly 1 "/dev/hidg0" "/dev/input/event2"]
                  friendly 2 "/dev/hidg1" "/dev/input/event3" eq_refl)).
Defined.

(** X4: [ListControllers] returns each registered slot exactly once and
    nothing else. *)
Theorem list_is_the_registered_slots :
  forall (cm : Multi.ControllerManager) (playerNum : Z),
    NoDup (Multi.ListControllers cm) /\
    (playerNum ∈ Multi.ListControllers cm
     <-> is_Some (Multi.controllers cm !! playerNum)) /\
    length (Multi.ListControllers cm) = size (Multi.controllers cm).
Proof.
  intros cm n. unfold Multi.ListControllers.
  split; [apply NoDup_fst_map_to_list | split].
  - rewrite list_elem_of_fmap. split.
    + intros [[k c] [-> H]]. apply elem_of_map_to_list in H. simpl. eauto.
    + intros [c H]. exists (n, c). split; [reflexivity |].
      now apply elem_of_map_to_list.
  - now rewrite length_fmap, length_map_to_list.
Qed.

(** X5: [AddController] succeeds exactly when the slot is in 1..8, free
    and the endpoint connects; whether it succeeds or fails, every other
    slot keeps its controller and its input device. *)
Theorem add_succeeds_exactly_when :
  forall (w : Multi.World) (cm : Multi.ControllerManager) (playerNum : Z)
         (hidgDevice inputDevice : string),
    let o := Multi.AddController w cm playerNum hidgDevice inputDevice in
    (Multi.result o = None <->
     1 <= playerNum <= 8 /\
     Multi.controllers cm !! playerNum = None /\
     Multi.connect_error w hidgDevice = None) /\
    (forall other : Z,
        other <> playerNum ->
        Multi.controllers (Multi.manager o) !! other
        = Multi.controllers cm !! other /\
        Multi.devices (Multi.manager o) !! other = Multi.devices cm !! other).
Proof.
  intros w cm n e s o. split.
  - split.
    + intros H. destruct (add_success w cm n e s H) as (? & ? & ? & _). auto.
    + intros (Hr & Hfree & Hconn). subst o. unfold Multi.AddController.
      now rewrite (add_in_range n Hr), Hfree, Hconn.
  - intros other Hne. subst o. now apply add_keeps_others.
Qed.

(** Adding slot 2 to the manager that holds slot 1 succeeds in the
    friendly world and leaves slot 1 with its controller. *)
Lemma add_succeeds_exactly_when_witness :
  Multi.result (Multi.AddController friendly one_session 2 "/dev/hidg1"
                                    "/dev/input/event3") = None /\
  Multi.controllers
    (Multi.manager (Multi.AddController friendly one_session 2 "/dev/hidg1"
                                        "/dev/input/event3")) !! 1
  = Multi.controllers one_session !! 1.
Proof.
  destruct (add_succeeds_exactly_when friendly one_session 2 "/dev/hidg1"
              "/dev/input/event3") as [Hiff Hframe].
  split.
  - apply Hiff. split; [lia | split; reflexivity].
  - apply (Hframe 1). discriminate.
Defined.

(** X6: whatever the calls made on a new manager, the handles it has
    connected are, counted with multiplicity, the handles it has closed
    together with the handles still registered: no connected handle is
    dropped without [Close], none is closed twice. *)
Theorem handles_are_balanced :
  forall (logLevel : Z) (calls : list Lifecycle.Call),
    let st := Lifecycle.run logLevel calls in
    Lifecycle.connected st.2
    ≡ₚ Lifecycle.closed st.2 ++ (map_to_list (Multi.controllers st.1)).*2.
Proof.
  intros lv calls st. subst st. unfold Lifecycle.run.
  apply fold_step_balance. simpl.
  unfold Lifecycle.registered; simpl. now rewrite map_to_list_empty.
Qed.

(** ** Read loops *)

Section LoopFacts.
Import Decoder Multi Stream.

Lemma fill_keeps_length (r : Read) (buffer : list Byte.byte) :
  length (fill r buffer) = length buffer.
Proof.
  unfold fill. rewrite length_take, length_app, length_drop. lia.
Qed.

Lemma fill_whole (r : Read) (buffer : list Byte.byte) :
  length buffer = 24%nat -> count r = eventSize -> fill r buffer = data r.
Proof.
  intros Hb Hc. apply fill_full. unfold count, eventSize in Hc. lia.
Qed.

(** One iteration of a registered reader applies the event of its read,
    if the read carries one. *)
Lemma iteration_registered (cm : ControllerManager) (p : Z) (r : Read) (l : Loop) :
  is_Some (controllers cm !! p) -> length (buffer l) = 24%nat ->
  iteration cm p r l
  = Continue {| buffer := fill r (buffer l);
                con := match event_of r with
                       | Some ev => apply (con l) ev
                       | None => con l
                       end |}.
Proof.
  intros [c Hc] Hb. unfold iteration, event_of. rewrite Hc.
  destruct (failed r); [reflexivity |].
  destruct (Z.eqb_spec (count r) eventSize) as [Heq | Hne]; cbn [negb];
    [| reflexivity].
  rewrite parse_layout, (fill_whole r _ Hb Heq).
  unfold apply. now destruct (layout (data r)) as [[t cd] v].
Qed.

Lemma single_iteration_event (r : Read) (l : Loop) :
  length (buffer l) = 24%nat ->
  Single.iteration r l
  = {| buffer := fill r (buffer l);
       con := match event_of r with
              | Some ev => apply (con l) ev
              | None => con l
              end |}.
Proof.
  intros Hb. unfold Single.iteration, event_of.
  destruct (failed r); [reflexivity |].
  destruct (Z.eqb_spec (count r) eventSize) as [Heq | Hne]; cbn [negb];
    [| reflexivity].
  rewrite parse_layout, (fill_whole r _ Hb Heq).
  unfold apply. destruct (layout (data r)) as [[t cd] v]. simpl.
  now rewrite single_handles_as_multi.
Qed.

Lemma replay_cons (r : Read) (reads : list Read) (c : Input.ControllerInput) :
  replay (r :: reads) c
  = replay reads (match event_of r with
                  | Some ev => apply c ev
                  | None => c
                  end).
Proof. unfold replay. simpl. now destruct (event_of r). Qed.

Lemma loop_registered (p : Z) (trace : list (ControllerManager * Read)) :
  forall l : Loop,
    Forall (fun it => is_Some (controllers it.1 !! p)) trace ->
    length (buffer l) = 24%nat ->
    exists b, length b = 24%nat /\
      loop p trace l = Reading {| buffer := b; con := replay trace.*2 (con l) |}.
Proof.
  induction trace as [| [cm r] trace IH]; intros l Hall Hb.
  - exists (buffer l). split; [exact Hb |]. now destruct l.
  - apply Forall_cons in Hall as [Hreg Hall]. simpl in Hreg.
    cbn [loop]. rewrite (iteration_registered cm p r l Hreg Hb).
    destruct (IH {| buffer := fill r (buffer l);
                    con := match event_of r with
                           | Some ev => apply (con l) ev
                           | None => con l
                           end |} Hall) as (b & Hlen & Hloop).
    { simpl. now rewrite fill_keeps_length. }
    exists b. split; [exact Hlen |]. rewrite Hloop. simpl.
    now rewrite replay_cons.
Qed.

Lemma loop_stops (p : Z) (pre : list (ControllerManager * Read)) :
  forall (cm : ControllerManager) (r : Read)
         (post : list (ControllerManager * Read)) (l : Loop),
    Forall (fun it => is_Some (controllers it.1 !! p)) pre ->
    controllers cm !! p = None ->
    length (buffer l) = 24%nat ->
    loop p (pre ++ (cm, r) :: post) l = Stopped (replay pre.*2 (con l)).
Proof.
  induction pre as [| [cm0 r0] pre IH]; intros cm r post l Hall Hgone Hb.
  - simpl. unfold iteration. now rewrite Hgone.
  - apply Forall_cons in Hall as [Hreg Hall]. simpl in Hreg.
    cbn [app loop]. rewrite (iteration_registered cm0 p r0 l Hreg Hb).
    rewrite (IH cm r post _ Hall Hgone) by (simpl; now rewrite fill_keeps_length).
    simpl. now rewrite replay_cons.
Qed.

Lemma single_loop_replay (reads : list Read) :
  forall l : Loop,
    length (buffer l) = 24%nat ->
    con (single_loop reads l) = replay reads (con l) /\
    length (buffer (single_loop reads l)) = 24%nat.
Proof.
  induction reads as [| r reads IH]; intros l Hb; [split; [reflexivity | exact Hb] |].
  unfold single_loop in *. simpl.
  rewrite (single_iteration_event r l Hb).
  destruct (IH {| buffer := fill r (buffer l);
                  con := match event_of r with
                         | Some ev => apply (con l) ev
                         | None => con l
                         end |}) as [Hcon Hlen].
  { simpl. now rewrite fill_keeps_length. }
  split; [| exact Hlen]. rewrite Hcon. simpl. now rewrite replay_cons.
Qed.

End LoopFacts.

(** X7: as long as its slot is registered at every iteration, the reader
    of multi_controller.go does not return, and the controller input it
    has built is the result of applying, in arrival order, the events of
    exactly those reads that came without error and with 24 bytes; the
    bytes a failed or short read left in the buffer never reach an event.
    The loop of the single-controller program builds the same input from
    the same reads. *)
Theorem reader_applies_events_in_order :
  forall (w : Multi.World) (playerNum : Z) (devicePath : string)
         (input : Input.ControllerInput)
         (trace : list (Multi.ControllerManager * Decoder.Read)),
    Multi.can_open w devicePath = true ->
    Forall (fun it => is_Some (Multi.controllers it.1 !! playerNum)) trace ->
    (exists b,
        Multi.readControllerInput w playerNum devicePath input trace
        = Multi.Reading {| Decoder.buffer := b;
                           Decoder.con := Stream.replay trace.*2 input |}) /\
    Decoder.con
      (Stream.single_loop trace.*2
         {| Decoder.buffer := Decoder.fresh_buffer; Decoder.con := input |})
    = Stream.replay trace.*2 input.
Proof.
  intros w p dev input trace Hopen Hall. split.
  - unfold Multi.readControllerInput. rewrite Hopen.
    destruct (loop_registered p trace
                {| Decoder.buffer := Decoder.fresh_buffer; Decoder.con := input |}
                Hall eq_refl) as (b & _ & Hloop).
    exists b. exact Hloop.
  - apply (single_loop_replay trace.*2
             {| Decoder.buffer := Decoder.fresh_buffer; Decoder.con := input |}
             eq_refl).
Qed.

(** A ten-byte read followed by the full axis record leaves the left
    stick's Y as the one event (type 3, code 1, value 200) sets it. *)
Lemma reader_applies_events_in_order_witness :
  Decoder.con
    (Stream.single_loop registered_twice.*2
       {| Decoder.buffer := Decoder.fresh_buffer; Decoder.con := Input.zero |})
  = Multi.handleInputEvent 3 1 200 Input.zero.
Proof.
  rewrite (proj2 (reader_applies_events_in_order friendly 1 "/dev/input/event2"
                    Input.zero registered_twice eq_refl
                    ltac:(repeat constructor; eexists; reflexivity))).
  reflexivity.
Defined.

(** X8: the reader returns at the first iteration that finds its slot
    gone from the registry, without reading again: the controller input is
    the one built from the reads before, and neither the read that would
    have come next nor anything later is consumed.  A registry after
    [RemoveController] of the slot or after [Close] is such a registry. *)
Theorem reader_stops_when_unregistered :
  forall (w : Multi.World) (playerNum : Z) (devicePath : string)
         (input : Input.ControllerInput)
         (pre post : list (Multi.ControllerManager * Decoder.Read))
         (cm : Multi.ControllerManager) (r : Decoder.Read),
    Multi.can_open w devicePath = true ->
    Forall (fun it => is_Some (Multi.controllers it.1 !! playerNum)) pre ->
    let stopped := Multi.Stopped (Stream.replay pre.*2 input) in
    (Multi.controllers cm !! playerNum = None ->
     Multi.readControllerInput w playerNum devicePath input
       (pre ++ (cm, r) :: post) = stopped) /\
    Multi.readControllerInput w playerNum devicePath input
      (pre ++ ((Multi.RemoveController cm playerNum).1, r) :: post) = stopped /\
    Multi.readControllerInput w playerNum devicePath input
      (pre ++ ((Multi.Close cm).1, r) :: post) = stopped.
Proof.
  intros w p dev input pre post cm r Hopen Hall stopped.
  assert (Hstop : forall cm',
             Multi.controllers cm' !! p = None ->
             Multi.readControllerInput w p dev input (pre ++ (cm', r) :: post)
             = stopped).
  { intros cm' Hgone. unfold Multi.readControllerInput. rewrite Hopen.
    exact (loop_stops p pre cm' r post
             {| Decoder.buffer := Decoder.fresh_buffer; Decoder.con := input |}
             Hall Hgone eq_refl). }
  split; [apply Hstop | split; apply Hstop].
  - apply remove_frees_slot.
  - simpl. apply lookup_empty.
Qed.

(** After the two reads, a third iteration that finds the registry
    closed makes the reader of slot 1 return with the input built so
    far. *)
Lemma reader_stops_when_unregistered_witness :
  Multi.readControllerInput friendly 1 "/dev/input/event2" Input.zero
    (registered_twice ++ [((Multi.Close one_session).1, full_read)])
  = Multi.Stopped (Multi.handleInputEvent 3 1 200 Input.zero).
Proof.
  exact (proj2 (proj2 (reader_stops_when_unregistered friendly 1
                         "/dev/input/event2" Input.zero registered_twice []
                         one_session full_read eq_refl
                         ltac:(repeat constructor; eexists; reflexivity)))).
Defined.

(** X9: an iteration of the reader of one slot behaves the same before
    and after an [AddController] or a [RemoveController] on any other
    slot: sessions do not disturb each other's readers. *)
Theorem reader_ignores_other_slots :
  forall (w : Multi.World) (cm : Multi.ControllerManager)
         (playerNum other : Z) (hidgDevice inputDevice : string)
         (r : Decoder.Read) (l : Decoder.Loop),
    other <> playerNum ->
    Multi.iteration
      (Multi.manager (Multi.AddController w cm other hidgDevice inputDevice))
      playerNum r l
    = Multi.iteration cm playerNum r l /\
    Multi.iteration (Multi.RemoveController cm other).1 playerNum r l
    = Multi.iteration cm playerNum r l.
Proof.
  intros w cm p other e s r l Hne.
  assert (Hp : p <> other) by congruence.
  unfold Multi.iteration.
  rewrite (proj1 (add_keeps_others w cm other p e s Hp)).
  rewrite (proj1 (remove_keeps_others cm other p Hp)).
  split; reflexivity.
Qed.

(** Removing slot 2, or adding it, leaves an iteration of the reader of
    slot 1 as it was. *)
Lemma reader_ignores_other_slots_witness :
  Multi.iteration (Multi.RemoveController one_session 2).1 1 full_read
    {| Decoder.buffer := Decoder.fresh_buffer; Decoder.con := Input.zero |}
  = Multi.iteration one_session 1 full_read
      {| Decoder.buffer := Decoder.fresh_buffer; Decoder.con := Input.zero |}.
Proof.
  exact (proj2 (reader_ignores_other_slots friendly one_session 1 2
                  "/dev/hidg1" "/dev/input/event3" full_read
                  {| Decoder.buffer := Decoder.fresh_buffer;
                     Decoder.con := Input.zero |}
                  ltac:(discriminate))).
Defined.

(** ** Event decoder: what a record determines *)

Section RecordFacts.
Import MachineInt Decoder Wire.

Lemma byte_of_value (z : Z) : Z.of_N (Byte.to_N (byte_of z)) = z mod 256.
Proof.
  unfold byte_of.
  pose proof (Z.mod_pos_bound z 256 ltac:(lia)) as Hb.
  destruct (Byte.of_N (Z.to_N (z mod 256))) as [b |] eqn:Hof.
  - apply Byte.to_of_N in Hof. rewrite Hof. lia.
  - apply Byte.of_N_None_iff in Hof. lia.
Qed.

Lemma byte_value_inj (x y : Byte.byte) :
  Z.of_N (Byte.to_N x) = Z.of_N (Byte.to_N y) -> x = y.
Proof.
  intros H. apply N2Z.inj in H.
  pose proof (Byte.of_to_N x) as Hx. rewrite H, Byte.of_to_N in Hx.
  now injection Hx.
Qed.

Lemma le_unsigned16_inj (a0 a1 b0 b1 : Z) :
  0 <= a0 <= 255 -> 0 <= a1 <= 255 -> 0 <= b0 <= 255 -> 0 <= b1 <= 255 ->
  le_unsigned16 a0 a1 = le_unsigned16 b0 b1 -> a0 = b0 /\ a1 = b1.
Proof. unfold le_unsigned16. lia. Qed.

Lemma le_signed32_inj (a0 a1 a2 a3 b0 b1 b2 b3 : Z) :
  0 <= a0 <= 255 -> 0 <= a1 <= 255 -> 0 <= a2 <= 255 -> 0 <= a3 <= 255 ->
  0 <= b0 <= 255 -> 0 <= b1 <= 255 -> 0 <= b2 <= 255 -> 0 <= b3 <= 255 ->
  le_signed32 a0 a1 a2 a3 = le_signed32 b0 b1 b2 b3 ->
  a0 = b0 /\ a1 = b1 /\ a2 = b2 /\ a3 = b3.
Proof.
  unfold le_signed32. intros.
  destruct (Z.ltb_spec (a0 + 256 * a1 + 65536 * a2 + 16777216 * a3) 2147483648),
           (Z.ltb_spec (b0 + 256 * b1 + 65536 * b2 + 16777216 * b3) 2147483648);
    lia.
Qed.

Lemma layout_of_record (timestamp : list Byte.byte) (t c v : Z) :
  length timestamp = 16%nat ->
  is_uint16 t -> is_uint16 c -> is_int32 v ->
  layout (record timestamp t c v) = (t, c, v).
Proof.
  intros Hts Ht Hc Hv. unfold layout, record, at_.
  rewrite !app_nth2 by lia. rewrite Hts. simpl.
  rewrite !byte_of_value.
  unfold is_uint16, is_int32, le_unsigned16, le_signed32 in *.
  assert (Ht' : t mod 256 + 256 * ((t / 256) mod 256) = t)
    by (Z.to_euclidean_division_equations; lia).
  assert (Hc' : c mod 256 + 256 * ((c / 256) mod 256) = c)
    by (Z.to_euclidean_division_equations; lia).
  assert (Hv' : v mod 256 + 256 * ((v / 256) mod 256)
                + 65536 * ((v / 65536) mod 256)
                + 16777216 * ((v / 16777216) mod 256)
                = if 0 <=? v then v else v + 4294967296).
  { destruct (Z.leb_spec 0 v); Z.to_euclidean_division_equations; lia. }
  rewrite Ht', Hc', Hv'.
  destruct (Z.leb_spec 0 v).
  - destruct (Z.ltb_spec v 2147483648); [reflexivity | lia].
  - destruct (Z.ltb_spec (v + 4294967296) 2147483648); [lia |].
    repeat f_equal. lia.
Qed.

End RecordFacts.

(** X10: two 24-byte records decode to the same event exactly when their
    last eight bytes are the same: the decoder reads nothing from the
    timestamp and loses nothing of type, code and value. *)
Theorem decoding_is_injective_on_the_event_bytes :
  forall b b' : list Byte.byte,
    length b = 24%nat -> length b' = 24%nat ->
    (Decoder.parse b = Decoder.parse b' <-> drop 16 b = drop 16 b').
Proof.
  intros b b' Hb Hb'. rewrite !parse_layout. split.
  - intros H.
    do 24 (destruct b as [| ? b]; [discriminate Hb |]).
    destruct b; [| discriminate Hb].
    do 24 (destruct b' as [| ? b']; [discriminate Hb' |]).
    destruct b'; [| discriminate Hb'].
    unfold Decoder.layout, Decoder.at_ in H. simpl in H.
    injection H as Ht Hc Hv.
    apply le_unsigned16_inj in Ht as [H16 H17];
      try (match goal with |- _ <= Z.of_N (Byte.to_N ?x) <= _ =>
             pose proof (Byte.to_N_bounded x); lia end).
    apply le_unsigned16_inj in Hc as [H18 H19];
      try (match goal with |- _ <= Z.of_N (Byte.to_N ?x) <= _ =>
             pose proof (Byte.to_N_bounded x); lia end).
    apply le_signed32_inj in Hv as (H20 & H21 & H22 & H23);
      try (match goal with |- _ <= Z.of_N (Byte.to_N ?x) <= _ =>
             pose proof (Byte.to_N_bounded x); lia end).
    apply byte_value_inj in H16, H17, H18, H19, H20, H21, H22, H23.
    simpl. now subst.
  - intros H.
    rewrite <- (take_drop 16 b), <- (take_drop 16 b'), H.
    apply layout_ignores_timestamp; rewrite length_take; lia.
Qed.

(** The axis record decodes as the record that differs from it in the
    timestamp only. *)
Lemma decoding_is_injective_on_the_event_bytes_witness :
  Decoder.parse axis_record
  = Decoder.parse (repeat Byte.x00 16 ++ drop 16 axis_record).
Proof.
  exact (proj2 (decoding_is_injective_on_the_event_bytes axis_record
                  (repeat Byte.x00 16 ++ drop 16 axis_record)
                  eq_refl eq_refl) eq_refl).
Defined.

(** X11: the decoder returns a type and a code that fit [uint16] and a
    value that fits [int32], and every such triple is the decoding of a
    24-byte record: the little-endian record behind any 16-byte
    timestamp decodes to the event it was written for. *)
Theorem decoding_covers_every_event :
  forall (timestamp : list Byte.byte) (eventType code value : Z),
    length timestamp = 16%nat ->
    MachineInt.is_uint16 eventType -> MachineInt.is_uint16 code ->
    MachineInt.is_int32 value ->
    length (Wire.record timestamp eventType code value) = 24%nat /\
    Decoder.parse (Wire.record timestamp eventType code value)
    = (eventType, code, value) /\
    (forall buffer : list Byte.byte,
        MachineInt.is_uint16 (Decoder.parse buffer).1.1 /\
        MachineInt.is_uint16 (Decoder.parse buffer).1.2 /\
        MachineInt.is_int32 (Decoder.parse buffer).2).
Proof.
  intros ts t c v Hts Ht Hc Hv. split; [| split].
  - unfold Wire.record. rewrite length_app, Hts. reflexivity.
  - rewrite parse_layout. now apply layout_of_record.
  - intros buffer. rewrite parse_layout. apply layout_types.
Qed.

(** The record written for the event (type 3, code 1, value -32768)
    decodes to that event. *)
Lemma decoding_covers_every_event_witness :
  Decoder.parse (Wire.record (repeat Byte.xff 16) 3 1 (-32768))
  = (3, 1, -32768).
Proof.
  exact (proj1 (proj2 (decoding_covers_every_event (repeat Byte.xff 16)
                         3 1 (-32768) eq_refl
                         ltac:(unfold MachineInt.is_uint16; lia)
                         ltac:(unfold MachineInt.is_uint16; lia)
                         ltac:(unfold MachineInt.is_int32; lia)))).
Defined.

(** ** State mapper: how events compose *)

Section ComposeFacts.
Import Input Level Mapping.

(** Case analysis on the comparisons with zero that remain. *)
Ltac split_signs :=
  repeat match goal with
         | |- context [?a <? ?b] => destruct (a <? b)
         end.

Lemma key_switch_overwrites (code v1 v2 : Z) (con : ControllerInput) :
  key_switch code v2 (key_switch code v1 con) = key_switch code v2 con.
Proof.
  unfold key_switch, setInput. split_codes; split_signs; reflexivity.
Qed.

Lemma abs_switch_overwrites (x1 x2 : float) (code v1 v2 : Z) (con : ControllerInput) :
  abs_switch x2 code v2 (abs_switch x1 code v1 con) = abs_switch x2 code v2 con.
Proof.
  unfold abs_switch, hat. split_codes; split_signs; reflexivity.
Qed.

Lemma multi_overwrites (eventType code v1 v2 : Z) (con : ControllerInput) :
  Multi.handleInputEvent eventType code v2
    (Multi.handleInputEvent eventType code v1 con)
  = Multi.handleInputEvent eventType code v2 con.
Proof.
  unfold Multi.handleInputEvent.
  destruct (eventType =? EV_KEY); [apply key_switch_overwrites |].
  destruct (eventType =? EV_ABS); [apply abs_switch_overwrites | reflexivity].
Qed.

Lemma multi_commutes (t1 c1 v1 t2 c2 v2 : Z) (con : ControllerInput) :
  (forall f, f ∈ written t1 c1 -> f ∉ written t2 c2) ->
  Multi.handleInputEvent t1 c1 v1 (Multi.handleInputEvent t2 c2 v2 con)
  = Multi.handleInputEvent t2 c2 v2 (Multi.handleInputEvent t1 c1 v1 con).
Proof.
  unfold Multi.handleInputEvent, written, EV_KEY, EV_ABS.
  generalize (Axis.normalize3 v1) (Axis.normalize3 v2). intros x1 x2.
  unfold key_switch, abs_switch, setInput, hat.
  split_codes; intros H; try reflexivity;
    try (exfalso; eapply H; apply list_elem_of_here);
    split_signs; reflexivity.
Qed.

End ComposeFacts.

(** X12: of two events with the same type and code only the later one
    counts: handling the second after the first leaves the state that
    handling the second alone leaves.  In particular handling an event
    twice is handling it once, and press followed by release is
    release. *)
Theorem later_event_overwrites :
  forall (eventType code value value' : Z) (con : Input.ControllerInput),
    Multi.handleInputEvent eventType code value'
      (Multi.handleInputEvent eventType code value con)
    = Multi.handleInputEvent eventType code value' con /\
    Single.handleInputEvent eventType code value'
      (Single.handleInputEvent eventType code value con)
    = Single.handleInputEvent eventType code value' con.
Proof.
  intros t c v v' con. rewrite !single_handles_as_multi.
  split; apply multi_overwrites.
Qed.

(** X13: two events whose codes are mapped to different fields can be
    handled in either order with the same result. *)
Theorem independent_events_commute :
  forall (t1 c1 v1 t2 c2 v2 : Z) (con : Input.ControllerInput),
    (forall f : Input.Field,
        f ∈ Mapping.written t1 c1 -> f ∉ Mapping.written t2 c2) ->
    Multi.handleInputEvent t1 c1 v1 (Multi.handleInputEvent t2 c2 v2 con)
    = Multi.handleInputEvent t2 c2 v2 (Multi.handleInputEvent t1 c1 v1 con) /\
    Single.handleInputEvent t1 c1 v1 (Single.handleInputEvent t2 c2 v2 con)
    = Single.handleInputEvent t2 c2 v2 (Single.handleInputEvent t1 c1 v1 con).
Proof.
  intros t1 c1 v1 t2 c2 v2 con H. rewrite !single_handles_as_multi.
  split; now apply multi_commutes.
Qed.

(** The press of A and a d-pad event can be handled in either order. *)
Lemma independent_events_commute_witness :
  Multi.handleInputEvent 1 304 1 (Multi.handleInputEvent 3 16 (-1) Input.zero)
  = Multi.handleInputEvent 3 16 (-1) (Multi.handleInputEvent 1 304 1 Input.zero).
Proof.
  apply (independent_events_commute 1 304 1 3 16 (-1) Input.zero).
  intros f Hf. apply elem_of_cons in Hf as [-> | Hf].
  - intros H. apply elem_of_cons in H as [H | H]; [discriminate H |].
    apply elem_of_cons in H as [H | H]; [discriminate H |].
    now apply not_elem_of_nil in H.
  - now apply not_elem_of_nil in Hf.
Defined.

(** ** State mapper: what every sequence of events keeps *)

Section ShapeFacts.
Import Input Level Shape MachineInt.

Lemma zero_digital_ok : Digital_ok zero.
Proof.
  split; simpl; try lia.
  intros d _ _. unfold binary. destruct d; simpl; auto.
Qed.

Lemma handle_digital_ok (t c v : Z) (con : ControllerInput) :
  Digital_ok con -> Digital_ok (Multi.handleInputEvent t c v con).
Proof.
  intros [Hb Hl Hr Hh Hv]. split.
  - intros d Hd1 Hd2. apply buttons_and_dpad_stay_binary; auto.
  - unfold Multi.handleInputEvent, key_switch, abs_switch, hat, setInput,
      EV_KEY, EV_ABS, uint8.
    split_codes;
      repeat match goal with
             | |- context [?a <? ?b] => destruct (a <? b)
             end; simpl; try assumption.
    pose proof (Z.mod_pos_bound v 256); lia.
  - unfold Multi.handleInputEvent, key_switch, abs_switch, hat, setInput,
      EV_KEY, EV_ABS, uint8.
    split_codes;
      repeat match goal with
             | |- context [?a <? ?b] => destruct (a <? b)
             end; simpl; try assumption.
    pose proof (Z.mod_pos_bound v 256); lia.
  - unfold Multi.handleInputEvent, key_switch, abs_switch, hat, setInput,
      EV_KEY, EV_ABS.
    split_codes;
      repeat match goal with
             | |- context [?a <? ?b] => destruct (a <? b)
             end; simpl; first [assumption | lia].
  - unfold Multi.handleInputEvent, key_switch, abs_switch, hat, setInput,
      EV_KEY, EV_ABS.
    split_codes;
      repeat match goal with
             | |- context [?a <? ?b] => destruct (a <? b)
             end; simpl; first [assumption | lia].
Qed.

Lemma replay_digital_ok (events : list (Z * Z * Z)) :
  forall con, Digital_ok con -> Digital_ok (fold_left Stream.apply events con).
Proof.
  induction events as [| ev events IH]; intros con H; [exact H |].
  simpl. apply IH. apply handle_digital_ok. exact H.
Qed.

Lemma handle_sticks_in_unit (t c v : Z) (con : ControllerInput) :
  -32768 <= v <= 32767 ->
  sticks_in_unit con = true ->
  sticks_in_unit (Multi.handleInputEvent t c v con) = true.
Proof.
  intros Hv H. destruct (normalized_in_unit_16bit v Hv) as [Hx Hy].
  unfold sticks_in_unit in *.
  apply andb_true_iff in H as [H H4]. apply andb_true_iff in H as [H H3].
  apply andb_true_iff in H as [H1 H2].
  unfold Multi.handleInputEvent, key_switch, abs_switch, hat, setInput,
    EV_KEY, EV_ABS.
  split_codes;
    repeat match goal with
           | |- context [?a <? ?b] => destruct (a <? b)
           end; simpl;
    rewrite ?H1, ?H2, ?H3, ?H4, ?Hx, ?Hy; reflexivity.
Qed.

End ShapeFacts.

(** X14: starting from the zero state, after any sequence of events with
    arbitrary type, code and value, every button and d-pad field is 0 or
    1, each stick-press field is within 0..255, and Left and Right, and Up
    and Down, are never set together. *)
Theorem digital_shape_is_kept :
  forall events : list (Z * Z * Z),
    Shape.Digital_ok (fold_left Stream.apply events Input.zero) /\
    (forall reads : list Decoder.Read,
        Shape.Digital_ok (Stream.replay reads Input.zero)).
Proof.
  intros events. split.
  - apply replay_digital_ok, zero_digital_ok.
  - intros reads. apply replay_digital_ok, zero_digital_ok.
Qed.

(** X15: starting from a state whose stick axes lie in [-1, 1], after any
    sequence of events whose raw values fit a signed 16-bit axis the four
    stick axes still lie in [-1, 1]. *)
Theorem sticks_stay_in_unit :
  forall (events : list (Z * Z * Z)) (con : Input.ControllerInput),
    Forall Shape.fits16 events ->
    Shape.sticks_in_unit con = true ->
    Shape.sticks_in_unit (fold_left Stream.apply events con) = true.
Proof.
  induction events as [| ev events IH]; intros con Hall H; [exact H |].
  apply Forall_cons in Hall as [Hev Hall].
  simpl. apply IH; [exact Hall |].
  unfold Stream.apply. now apply handle_sticks_in_unit.
Qed.

(** Full deflection and a small raw value keep the sticks in range. *)
Lemma sticks_stay_in_unit_witness :
  Shape.sticks_in_unit
    (fold_left Stream.apply [(3, 0, -32768); (3, 1, 200); (3, 4, 32767)]
               Input.zero) = true.
Proof.
  apply sticks_stay_in_unit; [| reflexivity].
  repeat constructor; unfold Shape.fits16; simpl; lia.
Defined.

(** ** Axis normalizer: the curve on a signed 16-bit axis *)

Section CurveFacts.
Import Axis Curve MachineInt.

Lemma shape_everywhere :
  forall_between shape_at (-32768) 32767 = true.
Proof. vm_compute. reflexivity. Qed.

End CurveFacts.

(** X16: for every raw value of a signed 16-bit axis the normalized value
    is 0 exactly on the swallowed values (122..133 and, outside 0..255,
    -1638..1638), is 1 exactly at 255 and 32767 and -1 exactly at 0 and
    from -32767 down, is otherwise of magnitude at least 0.05, and does
    not decrease from one raw value to the next except at the two seams
    of the range inference: from -1 (read as 0.0) to 0 (read as -1.0) and
    from 255 (read as 1.0) to 256 (read as 0.0).  Both programs share the
    curve. *)
Theorem normalizer_curve :
  forall v : Z,
    -32768 <= v <= 32767 ->
    PrimFloat.eqb (Axis.normalize3 v) 0.0 = Curve.swallowed v /\
    PrimFloat.eqb (Axis.normalize3 v) 1.0 = Curve.full_positive v /\
    PrimFloat.eqb (Axis.normalize3 v) (-1.0) = Curve.full_negative v /\
    (PrimFloat.eqb (Axis.normalize3 v) 0.0
     || PrimFloat.leb Axis.dead (PrimFloat.abs (Axis.normalize3 v))) = true /\
    PrimFloat.leb (Axis.normalize3 v) (Axis.normalize3 (v + 1))
    = negb (Curve.seam v) /\
    Axis.normalize5 v = Axis.normalize3 v.
Proof.
  intros v Hv.
  pose proof (forall_between_spec _ _ _ shape_everywhere v Hv) as H.
  unfold Curve.shape_at in H.
  repeat (apply andb_true_iff in H as [H ?]).
  repeat match goal with
         | E : Bool.eqb _ _ = true |- _ => apply Bool.eqb_prop in E
         end.
  repeat split; try assumption. apply normalize5_normalize3.
Qed.

(** At the seam 255 the curve steps down: 255 is read as 1.0 and 256 as
    0.0. *)
Lemma normalizer_curve_witness :
  PrimFloat.eqb (Axis.normalize3 255) 1.0 = true /\
  PrimFloat.eqb (Axis.normalize3 256) 0.0 = true /\
  PrimFloat.leb (Axis.normalize3 255) (Axis.normalize3 (255 + 1)) = false.
Proof.
  pose proof (normalizer_curve 255 ltac:(lia)) as (_ & H1 & _ & _ & Hstep & _).
  pose proof (normalizer_curve 256 ltac:(lia)) as (H0 & _).
  split; [exact H1 | split; [exact H0 | exact Hstep]].
Defined.

(** ** Pulse mode over time *)

Section ScheduleFacts.
Import Input Level Pulse Schedule.

(** What handling one event can do to the machine. *)
Lemma handle_cases (t c v : Z) (m : Machine) :
  handleInputEvent t c v m = m \/
  (exists d, pulsed d /\ handleInputEvent t c v m = setInput d m) \/
  (exists d x, ~ pulsed d /\ handleInputEvent t c v m = assign (setD d x) m) \/
  (exists a x, handleInputEvent t c v m = assign (setA a x) m).
Proof.
  unfold handleInputEvent, key_switch, abs_switch, EV_KEY, EV_ABS, EV_SYN.
  generalize (Axis.normalize5 v). intros x.
  split_codes;
    repeat match goal with
           | |- context [?a <? ?b] => destruct (a <? b)
           end;
    first
      [ left; reflexivity
      | right; left; eexists; split; [| reflexivity]; split; discriminate
      | right; right; left; eexists; eexists; split; [| reflexivity];
        intros [H1 H2]; congruence
      | right; right; right; eexists; eexists; reflexivity ].
Qed.

(** A fold of timer functions leaves a field as it was unless one of the
    timers aims at it. *)
Lemma fold_fire_other (ts : list Timer) (c : ControllerInput) (d : Digital) :
  (forall t, t ∈ ts -> target t <> d) ->
  getD d (fold_left fire ts c) = getD d c.
Proof.
  revert c. induction ts as [| t ts IH]; intros c H; [reflexivity |].
  simpl. rewrite IH.
  - unfold fire. rewrite getD_setD.
    case_decide as E; [| reflexivity].
    exfalso. apply (H t); [apply list_elem_of_here | exact E].
  - intros t' Ht'. apply H. now apply list_elem_of_further.
Qed.










End ScheduleFacts.







(** X20: handling an event in pulse mode never removes or changes a
    pending timer and never advances the clock: the timers afterwards are
    the timers before, followed by at most one new timer due 100 ms
    later. *)
Theorem events_cancel_no_timer :
  forall (eventType code value : Z) (m : Pulse.Machine),
    Pulse.clock (Pulse.handleInputEvent eventType code value m) = Pulse.clock m /\
    (Pulse.timers (Pulse.handleInputEvent eventType code value m)
     = Pulse.timers m \/
     exists d : Input.Digital,
       Pulse.timers (Pulse.handleInputEvent eventType code value m)
       = Pulse.timers m
         ++ [{| Pulse.due := Pulse.clock m + 100; Pulse.target := d |}]).
Proof.
  intros t c v m.
  destruct (handle_cases t c v m)
    as [-> | [(d & _ & ->) | [(d & x & _ & ->) | (a & x & ->)]]];
    (split; [reflexivity |]); try (left; reflexivity).
  right. now exists d.
Qed.

(** ** Device discovery *)

Section DiscoveryFacts.
Import Discovery.

Lemma find_first {A : Type} (f : A -> bool) (l : list A) (x : A) :
  List.find f l = Some x ->
  exists before after,
    l = before ++ x :: after /\ f x = true /\
    forall y, y ∈ before -> f y = false.
Proof.
  induction l as [| a l IH]; intros H; [discriminate |].
  simpl in H. destruct (f a) eqn:Ea.
  - injection H as <-. exists [], l. repeat split; [exact Ea |].
    intros y Hy. now apply not_elem_of_nil in Hy.
  - destruct (IH H) as (before & after & -> & Hx & Hb).
    exists (a :: before), after. repeat split; [exact Hx |].
    intros y Hy. apply elem_of_cons in Hy as [-> | Hy]; [exact Ea | now apply Hb].
Qed.

Lemma find_none {A : Type} (f : A -> bool) (l : list A) :
  List.find f l = None -> forall y, y ∈ l -> f y = false.
Proof.
  intros H y Hy. apply list_elem_of_In in Hy.
  exact (List.find_none f l H y Hy).
Qed.

End DiscoveryFacts.

(** X21: [findControllerDevice] always returns one of its eight candidate
    paths.  If any candidate exists it returns the first that does (it
    exists, and no candidate before it in the list does); if none exists
    it returns /dev/input/event0, a path it has just found missing. *)
Theorem find_controller_device_first_existing :
  forall fs : Discovery.Files,
    let found := Discovery.findControllerDevice fs in
    found ∈ Discovery.possiblePaths /\
    ((exists p, p ∈ Discovery.possiblePaths /\ Discovery.stat fs p = true) ->
     Discovery.stat fs found = true /\
     exists before after,
       Discovery.possiblePaths = before ++ found :: after /\
       forall p, p ∈ before -> Discovery.stat fs p = false) /\
    ((forall p, p ∈ Discovery.possiblePaths -> Discovery.stat fs p = false) ->
     found = "/dev/input/event0"%string /\ Discovery.stat fs found = false).
Proof.
  intros fs found. subst found. unfold Discovery.findControllerDevice.
  destruct (List.find (Discovery.stat fs) Discovery.possiblePaths) as [x |] eqn:Hf.
  - destruct (find_first _ _ _ Hf) as (before & after & Hsplit & Hx & Hb).
    split; [| split].
    + rewrite Hsplit. apply elem_of_app. right. apply list_elem_of_here.
    + intros _. split; [exact Hx |]. now exists before, after.
    + intros Hnone. rewrite Hnone in Hx; [discriminate |].
      rewrite Hsplit. apply elem_of_app. right. apply list_elem_of_here.
  - pose proof (find_none _ _ Hf) as Hnone.
    split; [apply list_elem_of_here | split].
    + intros (p & Hp & Hs). rewrite (Hnone p Hp) in Hs. discriminate.
    + intros _. split; [reflexivity |]. apply Hnone, list_elem_of_here.
Qed.

(** With event devices 0 to 3 present the first candidate is found. *)
Lemma find_controller_device_first_existing_witness :
  Discovery.stat two_controllers (Discovery.findControllerDevice two_controllers)
  = true.
Proof.
  apply (proj1 (proj2 (find_controller_device_first_existing two_controllers))).
  exists "/dev/input/event2"%string. split; [| reflexivity].
  do 2 apply list_elem_of_further. apply list_elem_of_here.
Defined.

Section FindInputFacts.
Import Discovery.

Lemma probe_is_controller (fs : Files) (devices : gmap Z string) (i : Z) :
  probe fs devices i
  = if is_controller fs i
    then <[Z.of_nat (size devices) + 1 := event_path i]> devices
    else devices.
Proof.
  unfold probe, is_controller.
  destruct (stat fs (event_path i)); cbn [andb]; [| reflexivity].
  destruct (trimmed fs (name_path i)) as [name |].
  - destruct (decide (name = "Wireless Controller"%string)) as [-> | Hne].
    + now rewrite bool_decide_eq_true_2.
    + rewrite bool_decide_eq_false_2 by congruence. reflexivity.
  - rewrite bool_decide_eq_false_2 by discriminate. reflexivity.
Qed.

Lemma numbers_snoc (devices : gmap Z string) (l : list string) (p : string) :
  numbers devices l ->
  numbers (<[Z.of_nat (size devices) + 1 := p]> devices) (l ++ [p]).
Proof.
  intros [Hsize Hlook]. rewrite Hsize.
  assert (Hfree : devices !! (Z.of_nat (length l) + 1) = None).
  { rewrite Hlook. case_decide; [| reflexivity].
    apply lookup_ge_None. lia. }
  split.
  - rewrite map_size_insert_None by exact Hfree.
    rewrite length_app. simpl. lia.
  - intros k. rewrite lookup_insert. case_decide as E.
    + subst k. case_decide; [| lia].
      replace (Z.to_nat (Z.of_nat (length l) + 1 - 1)) with (length l) by lia.
      rewrite lookup_app_r by lia. now rewrite Nat.sub_diag.
    + rewrite Hlook. case_decide as Hk; [| reflexivity].
      destruct (decide (Z.to_nat (k - 1) < length l)%nat) as [Hlt | Hge].
      * now rewrite lookup_app_l by exact Hlt.
      * rewrite !(proj2 (lookup_ge_None _ _)); [reflexivity | | lia].
        rewrite length_app. simpl. lia.
Qed.

Lemma controllers_found_cons (fs : Files) (i : Z) (indices : list Z) :
  controllers_found fs (i :: indices)
  = (if is_controller fs i then [event_path i] else [])
    ++ controllers_found fs indices.
Proof.
  unfold controllers_found. simpl. now destruct (is_controller fs i).
Qed.

Lemma fold_probe_numbers (fs : Files) (indices : list Z) :
  forall (devices : gmap Z string) (l : list string),
    numbers devices l ->
    numbers (fold_left (probe fs) indices devices)
            (l ++ controllers_found fs indices).
Proof.
  induction indices as [| i indices IH]; intros devices l H.
  - unfold controllers_found. simpl. now rewrite app_nil_r.
  - rewrite controllers_found_cons. cbn [fold_left].
    rewrite probe_is_controller, app_assoc.
    destruct (is_controller fs i).
    + apply IH. now apply numbers_snoc.
    + rewrite app_nil_r. now apply IH.
Qed.

End FindInputFacts.

(** X22: [findInputDevices] numbers the wireless controllers among the
    event devices 0..9 from 1 in the order of their event numbers: player
    k is the k-th event device that exists and whose name, trimmed, is
    "Wireless Controller"; nothing else is in the map, which therefore
    has at most ten entries and no player 0. *)
Theorem find_input_devices_numbers_controllers :
  forall (fs : Discovery.Files) (k : Z),
    let found := Discovery.controllers_found fs (seqZ 0 10) in
    Discovery.findInputDevices fs !! k
    = (if decide (1 <= k) then found !! Z.to_nat (k - 1) else None) /\
    size (Discovery.findInputDevices fs) = length found /\
    (size (Discovery.findInputDevices fs) <= 10)%nat.
Proof.
  intros fs k found.
  destruct (fold_probe_numbers fs (seqZ 0 10) ∅ []) as [Hsize Hlook].
  { split; [reflexivity |]. intros k'. rewrite lookup_empty. now case_decide. }
  fold (Discovery.findInputDevices fs) in Hsize, Hlook.
  split; [apply Hlook | split; [exact Hsize |]].
  rewrite Hsize. simpl. unfold Discovery.controllers_found.
  rewrite length_fmap.
  etransitivity; [apply filter_length_le |]. reflexivity.
Qed.

(** With event devices 1 and 3 being wireless controllers, player 1 is
    event1 and player 2 is event3. *)
Lemma find_input_devices_numbers_controllers_witness :
  Discovery.findInputDevices two_controllers !! 1 = Some "/dev/input/event1"%string /\
  Discovery.findInputDevices two_controllers !! 2 = Some "/dev/input/event3"%string /\
  Discovery.findInputDevices two_controllers !! 3 = None.
Proof.
  pose proof (find_input_devices_numbers_controllers two_controllers) as H.
  split; [| split].
  - rewrite (proj1 (H 1)). reflexivity.
  - rewrite (proj1 (H 2)). reflexivity.
  - rewrite (proj1 (H 3)). reflexivity.
Defined.

(** ** The automatic set-up *)

Section AutoFacts.
Import Multi Discovery.

Lemma to_int_proper (z : Z) :
  Z.to_int z <> Decimal.Pos Decimal.Nil /\ Z.to_int z <> Decimal.Neg Decimal.Nil.
Proof.
  split; intros H; pose proof (DecimalZ.of_to z) as Hz; rewrite H in Hz;
    simpl in Hz; subst z; discriminate H.
Qed.

(** [%d] prints different numbers differently. *)
Lemma itoa_inj (a b : Z) : itoa a = itoa b -> a = b.
Proof.
  unfold itoa. intros H.
  destruct (to_int_proper a) as [Ha1 Ha2], (to_int_proper b) as [Hb1 Hb2].
  pose proof (NilZero.isi (Z.to_int a) Ha1 Ha2) as Ia.
  pose proof (NilZero.isi (Z.to_int b) Hb1 Hb2) as Ib.
  rewrite H, Ib in Ia. injection Ia as Ia.
  symmetry. now apply DecimalZ.to_int_inj.
Qed.

Lemma gadget_lookup (n : Z) (i : nat) :
  (Z.of_nat i < n) ->
  nth i (setupUSBGadgets n) ""%string = "/dev/hidg" +:+ itoa (Z.of_nat i).
Proof.
  intros Hi. unfold setupUSBGadgets.
  apply nth_lookup_Some with (d := ""%string).
  rewrite list_lookup_fmap, lookup_seqZ_lt by lia. reflexivity.
Qed.

Lemma gadget_length (n : Z) : length (setupUSBGadgets n) = Z.to_nat n.
Proof. unfold setupUSBGadgets. now rewrite length_fmap, length_seqZ. Qed.

End AutoFacts.

(** X23: [setupUSBGadgets] returns one endpoint path for each controller,
    /dev/hidg0 up to /dev/hidg(n-1) in this order, no two of them equal,
    and none at all for a count that is zero or negative. *)
Theorem gadget_paths_are_distinct :
  forall numControllers : Z,
    length (Discovery.setupUSBGadgets numControllers) = Z.to_nat numControllers /\
    (forall i : Z,
        0 <= i < numControllers ->
        Discovery.setupUSBGadgets numControllers !! Z.to_nat i
        = Some ("/dev/hidg" +:+ Discovery.itoa i)) /\
    NoDup (Discovery.setupUSBGadgets numControllers) /\
    (numControllers <= 0 -> Discovery.setupUSBGadgets numControllers = []).
Proof.
  intros n. split; [apply gadget_length | split; [| split]].
  - intros i Hi. unfold Discovery.setupUSBGadgets.
    rewrite list_lookup_fmap, lookup_seqZ_lt by lia.
    simpl. now rewrite Z2Nat.id by lia.
  - unfold Discovery.setupUSBGadgets. apply NoDup_fmap_2; [| apply NoDup_seqZ].
    intros a b H. simpl in H. apply itoa_inj.
    now repeat injection H as H.
  - intros Hn. unfold Discovery.setupUSBGadgets.
    apply length_zero_iff_nil. rewrite length_fmap, length_seqZ. lia.
Qed.

(** Four controllers get /dev/hidg0 to /dev/hidg3. *)
Lemma gadget_paths_are_distinct_witness :
  Discovery.setupUSBGadgets 4
  = [ "/dev/hidg0"; "/dev/hidg1"; "/dev/hidg2"; "/dev/hidg3" ]%string /\
  Discovery.setupUSBGadgets 4 !! Z.to_nat 3 = Some "/dev/hidg3"%string /\
  Discovery.setupUSBGadgets (-1) = [].
Proof.
  destruct (gadget_paths_are_distinct 4) as (_ & Hi & _).
  destruct (gadget_paths_are_distinct (-1)) as (_ & _ & _ & Hnone).
  split; [reflexivity | split].
  - rewrite (Hi 3) by lia. reflexivity.
  - apply Hnone. lia.
Defined.

Section AutoModeFacts.
Import Multi Discovery.

Lemma assigned_step (w : World) (lv : Z) (done : list string) (x : string)
    (total : Z) (cm : ControllerManager) :
  (forall e, connect_error w e = None) ->
  Z.of_nat (length done) < total ->
  assigned lv done cm ->
  let p := Z.of_nat (min (length done) 8) + 1 in
  let o := AddController w cm p
             (nth (Z.to_nat (p - 1)) (setupUSBGadgets total) ""%string) x in
  assigned lv (done ++ [x]) (manager o) /\
  (Z.of_nat (length (setupUSBGadgets total)) <? p) = false /\
  Z.of_nat (min (length (done ++ [x])) 8) + 1
  = match result o with Some _ => p | None => p + 1 end.
Proof.
  intros Hw Htotal [Hlv Hk] p o.
  assert (Hguard : (Z.of_nat (length (setupUSBGadgets total)) <? p) = false).
  { apply Z.ltb_ge. rewrite gadget_length. subst p. lia. }
  rewrite length_app. cbn [length].
  destruct (decide (length done < 8)%nat) as [Hlt | Hge].
  - (* the slot is in range and free: the add succeeds *)
    assert (Hp : p = Z.of_nat (length done) + 1) by (subst p; lia).
    assert (Hfree : controllers cm !! p = None).
    { rewrite (proj1 (Hk p)). case_decide; [lia | reflexivity]. }
    assert (Hnth : nth (Z.to_nat (p - 1)) (setupUSBGadgets total) ""%string
                   = "/dev/hidg" +:+ itoa (p - 1)).
    { rewrite gadget_lookup by lia. now rewrite Z2Nat.id by lia. }
    assert (Ho : o = {| result := None;
                        manager :=
                          {| controllers :=
                               <[p := {| path := "/dev/hidg" +:+ itoa (p - 1);
                                         LogLevel := lv |}]> (controllers cm);
                             devices := <[p := x]> (devices cm);
                             logLevel := lv |};
                        effects :=
                          [Connected {| path := "/dev/hidg" +:+ itoa (p - 1);
                                        LogLevel := lv |};
                           Started p x {| path := "/dev/hidg" +:+ itoa (p - 1);
                                          LogLevel := lv |}] |}).
    { subst o. unfold AddController.
      rewrite add_in_range by lia. rewrite Hfree, Hw, Hnth, Hlv. reflexivity. }
    rewrite Ho. cbn [result manager]. split; [| split; [exact Hguard | lia]].
    split; [reflexivity |]. intros k. cbn [controllers devices].
    rewrite !lookup_insert, length_app. cbn [length].
    destruct (decide (p = k)) as [<- | Hne].
    + rewrite !decide_True by lia.
      split; [reflexivity |].
      replace (Z.to_nat (p - 1)) with (length done) by lia.
      rewrite lookup_app_r by lia. now rewrite Nat.sub_diag.
    + rewrite (proj1 (Hk k)), (proj2 (Hk k)).
      destruct (decide (1 <= k <= Z.of_nat (min (length done) 8))) as [Hin | Hout].
      * rewrite !decide_True by lia.
        split; [reflexivity |]. rewrite lookup_app_l by lia. reflexivity.
      * rewrite !decide_False by lia. split; reflexivity.
  - (* eight slots are taken: slot 9 is refused and nothing changes *)
    assert (Hp : p = 9) by (subst p; lia).
    assert (Ho : o = fail (PlayerOutOfRange p) cm).
    { subst o. apply add_out_of_range. lia. }
    rewrite Ho. cbn [fail result manager].
    split; [| split; [exact Hguard | lia]].
    split; [exact Hlv |]. intros k. rewrite length_app. cbn [length].
    rewrite (proj1 (Hk k)), (proj2 (Hk k)).
    destruct (decide (1 <= k <= Z.of_nat (min (length done) 8))) as [Hin | Hout].
    + rewrite !decide_True by lia.
      split; [reflexivity |]. rewrite lookup_app_l by lia. reflexivity.
    + rewrite !decide_False by lia. split; reflexivity.
Qed.

Lemma auto_add_assigned (w : World) (lv total : Z) (rest : list string) :
  (forall e, connect_error w e = None) ->
  forall (done : list string) (cm : ControllerManager),
    Z.of_nat (length done + length rest) = total ->
    assigned lv done cm ->
    assigned lv (done ++ rest)
      (auto_add w (setupUSBGadgets total) rest
                (cm, Z.of_nat (min (length done) 8) + 1)).1.
Proof.
  intros Hw. induction rest as [| x rest IH]; intros done cm Htotal Hcm.
  - simpl. now rewrite app_nil_r.
  - cbn [auto_add].
    destruct (assigned_step w lv done x total cm Hw) as (Hnext & Hguard & Hp);
      [simpl in Htotal; lia | exact Hcm |].
    rewrite Hguard.
    assert (Hlen : Z.of_nat (length (done ++ [x]) + length rest) = total).
    { rewrite length_app. simpl in *. lia. }
    pose proof (IH (done ++ [x]) _ Hlen Hnext) as H.
    rewrite Hp, <- app_assoc in H. simpl in H.
    now destruct (result (AddController w cm (Z.of_nat (min (length done) 8) + 1)
                   (nth (Z.to_nat (Z.of_nat (min (length done) 8) + 1 - 1))
                        (setupUSBGadgets total) ""%string) x)).
Qed.

End AutoModeFacts.

(** X24: in auto mode, when every endpoint connects, the loop of [main]
    registers the input devices in the order it meets them on the slots
    1, 2, ..., slot k on the endpoint /dev/hidg(k-1), and takes no other
    slot; from the ninth device on every add is refused, so that at most
    eight devices are registered. *)
Theorem auto_mode_assigns_slots_in_order :
  forall (w : Multi.World) (logLevel : Z) (order : list string),
    (forall e, Multi.connect_error w e = None) ->
    Discovery.assigned logLevel order (Discovery.auto_mode w logLevel order).
Proof.
  intros w lv order Hw. unfold Discovery.auto_mode.
  apply (auto_add_assigned w lv (Z.of_nat (length order)) order Hw []
           (Multi.NewControllerManager lv)).
  - reflexivity.
  - split; [reflexivity |]. intros k. simpl. rewrite !lookup_empty.
    rewrite !decide_False by lia. split; reflexivity.
Qed.

(** Two devices found: event3 is met first and becomes player 1 on
    /dev/hidg0, event1 becomes player 2 on /dev/hidg1. *)
Lemma auto_mode_assigns_slots_in_order_witness :
  Multi.devices
    (Discovery.auto_mode friendly 1 ["/dev/input/event3"; "/dev/input/event1"]%string)
    !! 2 = Some "/dev/input/event1"%string /\
  Multi.controllers
    (Discovery.auto_mode friendly 1 ["/dev/input/event3"; "/dev/input/event1"]%string)
    !! 2 = Some {| Multi.path := "/dev/hidg1"; Multi.LogLevel := 1 |}.
Proof.
  destruct (auto_mode_assigns_slots_in_order friendly 1
              ["/dev/input/event3"; "/dev/input/event1"]%string
              ltac:(reflexivity)) as [_ Hk].
  destruct (Hk 2) as [Hc Hd]. split.
  - rewrite Hd. reflexivity.
  - rewrite Hc. reflexivity.
Defined.

(** ** Pulse mode and level mode side by side *)

(** X25: on every event that is mapped to no pulsed field (a stick axis,
    a stick press, an unmapped code or another event type) the pulse-mode
    handler changes the controller input exactly as the level-mode
    handlers do, and schedules nothing. *)
Theorem pulse_mode_agrees_off_the_buttons :
  forall (eventType code value : Z) (m : Pulse.Machine),
    (forall d : Input.Digital,
        Input.D d ∈ Mapping.written eventType code -> ~ Schedule.pulsed d) ->
    Pulse.con (Pulse.handleInputEvent eventType code value m)
    = Single.handleInputEvent eventType code value (Pulse.con m) /\
    Pulse.con (Pulse.handleInputEvent eventType code value m)
    = Multi.handleInputEvent eventType code value (Pulse.con m) /\
    Pulse.timers (Pulse.handleInputEvent eventType code value m)
    = Pulse.timers m.
Proof.
  intros t c v m. rewrite single_handles_as_multi.
  unfold Pulse.handleInputEvent, Multi.handleInputEvent, Mapping.written,
    Pulse.key_switch, Pulse.abs_switch, Level.key_switch, Level.abs_switch,
    Level.EV_KEY, Level.EV_ABS, Level.EV_SYN.
  rewrite <- normalize5_normalize3.
  generalize (Axis.normalize5 v). intros x.
  split_codes; intros H; try (repeat split; reflexivity);
    exfalso;
    first [ eapply H; [apply list_elem_of_here | split; discriminate]
          | eapply H; [apply list_elem_of_further, list_elem_of_here
                      | split; discriminate] ].
Qed.

(** A stick-axis event sets the same value in pulse mode as in level
    mode. *)
Lemma pulse_mode_agrees_off_the_buttons_witness :
  Pulse.con (Pulse.handleInputEvent 3 1 200 (Pulse.start Input.zero))
  = Multi.handleInputEvent 3 1 200 Input.zero.
Proof.
  apply (proj1 (proj2 (pulse_mode_agrees_off_the_buttons 3 1 200
                         (Pulse.start Input.zero)
                         ltac:(intros d H;
                               apply elem_of_cons in H as [H | H];
                               [discriminate H | now apply not_elem_of_nil in H])))).
Defined.
